(** * Ledger transaction and reversal engine of the gold/silver backend

    A shallow embedding of the route handlers that move ledger balances and
    the per-tenant metal stock (the ledger, settlement, karigar, voucher
    and stock routes), together with the properties the specification
    states about them.

    Modelling conventions.
    - A JavaScript number held by a document is an exact rational ([Q]);
      rounding of IEEE doubles, NaN and the infinities are outside the
      model.  Numeric equality is [==] on [Q]; "unchanged" is Leibniz
      equality.
    - A numeric field of a request body is a [JsValue]: absent, a finite
      number, or something that does not convert to a finite number.
    - The database of one tenant is a [World]; a Mongoose document read by
      a handler is a local value and reaches the world only through an
      explicit save, like in the source.
    - Handlers run in a state monad that keeps the state on a thrown error,
      so that writes made before a throw stay visible; [withSession] is the
      optional multi-document transaction that discards them.
    - A response is its status, its success flag and its message.  A
      success response whose body has no message carries "ok", and a
      message that interpolates the window hours is kept in a fixed
      wording; the properties below speak of such responses through
      their status and flag only. *)

From Stdlib Require Import QArith Lqa ZArith String List Bool DecimalString.
From stdpp Require Import base option gmap strings.

Local Open Scope Q_scope.
Local Open Scope string_scope.

(** ** Numeric utilities *)

Module Num.

Inductive JsValue :=
  | JUndefined
  | JNumber (n : Q)
  | JNonFinite.

(** [toNumber(value, fallback = 0)] of the settlement, karigar and
    voucher routes: [Number(value)] when finite, else the fallback. *)
Definition toNumber (value : JsValue) (fallback : Q) : Q :=
  match value with
  | JNumber n => n
  | JUndefined | JNonFinite => fallback
  end.

(** The same helper on a field read back from a document, with the
    [null] fallback of [getVoucherStockAdjustment]. *)
Definition toNumberOrNull (value : option Q) : option Q := value.

(** [toNumber(value) = Number(value || 0)] of the ledger routes.  The
    result is [None] for NaN, which a Number path cannot store. *)
Definition ledgerToNumber (value : JsValue) : option Q :=
  match value with
  | JUndefined => Some 0
  | JNumber n => Some n
  | JNonFinite => None
  end.

(** JavaScript [a || b] on numbers: [a] unless it is zero. *)
Definition orElse (a b : Q) : Q := if Qeq_bool a 0 then b else a.

Definition isZero (a : Q) : bool := Qeq_bool a 0.

Definition Qltb (a b : Q) : bool := negb (Qle_bool b a).

Definition Qmax0 (a : Q) : Q := if Qle_bool 0 a then a else 0.

End Num.
Export Num.

(** ** Data model *)

Inductive Metal := Gold | Silver.
Inductive LedgerType := Regular | Gst.
Inductive InvoiceType := Normal | GstInvoice.
Inductive VoucherType := Sale | Purchase.
Inductive Status := Active | Cancelled.
Inductive Direction := Payment | Receipt.
Inductive KarigarType := Given | Received.
Inductive StockMode := Bulk | ItemMode.
Inductive PaymentType :=
  | cash | credit
  | add_cash | add_gold | add_silver | money_to_gold | money_to_silver.

(** A request field that must name one of a fixed set of strings. *)
Inductive Field (A : Type) :=
  | Missing
  | Invalid
  | Valid (a : A).
Arguments Missing {A}.
Arguments Invalid {A}.
Arguments Valid {A} a.

#[global] Instance Metal_eq_dec : EqDecision Metal.
Proof. solve_decision. Defined.
#[global] Instance LedgerType_eq_dec : EqDecision LedgerType.
Proof. solve_decision. Defined.
#[global] Instance Status_eq_dec : EqDecision Status.
Proof. solve_decision. Defined.

(** [ledger.balances], also the shape of [voucher.previousLedgerState]. *)
Record Balances := mkBalances {
  goldFineWeight : Q;
  silverFineWeight : Q;
  amount : Q;
  cashBalance : Q;
  creditBalance : Q
}.

Record OpeningBalance := mkOpening {
  ob_amount : Q;
  ob_goldFineWeight : Q;
  ob_silverFineWeight : Q
}.

Record Ledger := mkLedger {
  ledgerName : string;
  ledgerType : LedgerType;
  openingBalance : OpeningBalance;
  balances : Balances;
  hasVouchers : bool
}.

(** The tenant's stock document (the daily rates are not modelled). *)
Record Stock := mkStock {
  gold : Q;
  silver : Q;
  cashInHand : Q
}.

Record StockInput := mkStockInput {
  si_gold : Q;
  si_silver : Q;
  si_cashAmount : Q;
  si_date : Z
}.

(** A cleaned voucher item; of its weights only [fineWeight] and
    [netWeight] and of its money only [amount] reach balances or stock. *)
Record Item := mkItem {
  itemName : string;
  metalType : Metal;
  netWeight : Q;
  fineWeight : Q;
  itemAmount : Q
}.

Record Voucher := mkVoucher {
  voucherNumber : string;
  v_ledgerId : nat;
  v_invoiceType : InvoiceType;
  v_invoiceNumber : string;
  paymentType : PaymentType;
  v_goldRate : Q;
  v_silverRate : Q;
  items : list Item;
  oldBalance_amount : Q;
  currentBalance_amount : Q;
  stoneAmount : Q;
  fineAmount : Q;
  totalGST : Q;
  total : Q;
  cashReceived : Q;
  status : Status;
  voucherType : VoucherType;
  previousLedgerState : option Balances;
  stockAdjusted : bool;
  stockAdjustment : option Q * option Q;
  stockRestored : bool;
  v_createdAt : option Z
}.

Record Settlement := mkSettlement {
  s_ledgerId : nat;
  s_metalType : Metal;
  balanceBefore : Q;
  metalRate : Q;
  fineGiven : Q;
  s_amount : Q;
  direction : Direction;
  balanceAfter_amount : Q;
  balanceAfter_fineWeight : Q;
  s_createdAt : option Z
}.

Record Karigar := mkKarigar {
  k_type : KarigarType;
  k_metalType : Metal;
  k_fineWeight : Q;
  chargeAmount : Q;
  isDeleted : bool;
  k_createdAt : option Z
}.

Record User := mkUser {
  stockMode : StockMode;
  autoIncrement : bool;
  currentVoucherNumber : nat
}.

(** Everything one tenant owns. *)
Record World := mkWorld {
  ledgers : gmap nat Ledger;
  vouchers : gmap nat Voucher;
  settlements : gmap nat Settlement;
  karigars : gmap nat Karigar;
  stock : option Stock;
  stockInputs : list StockInput;
  user : option User;
  nextId : nat
}.

Definition emptyWorld (u : option User) : World :=
  mkWorld ∅ ∅ ∅ ∅ None [] u 0.

(** What a request sees besides its body: the clock, the configured
    reversal window, whether the deployment supports multi-document
    transactions, and which document saves the storage layer refuses. *)
Inductive SavePoint :=
  | SaveLedger | SaveVoucher | SaveUser | SaveSettlement | SaveKarigar
  | SaveStock | SaveStockInput.

Record Env := mkEnv {
  now : Z;
  WINDOW_HOURS : JsValue;
  supportsTransactions : bool;
  saveFails : SavePoint -> bool
}.

(** ** Errors, responses and the handler monad *)

Record Error := mkError {
  e_status : option nat;
  e_message : string;
  e_code : option string
}.

(** [res.status(status).json({ success, message })] *)
Inductive Response := Resp (status : nat) (success : bool) (message : string).

Definition respStatus (r : Response) : nat :=
  match r with Resp s _ _ => s end.

Definition isSuccess (r : Response) : bool :=
  match r with Resp _ ok _ => ok end.

Definition createError (st : nat) (message code : string) : Error :=
  mkError (Some st) message (Some code).
Definition badRequest (message : string) : Error :=
  mkError (Some 400%nat) message None.
Definition notFound (message : string) : Error :=
  mkError (Some 404%nat) message None.
(** An exception of the storage layer: no [status] of its own. *)
Definition storageError : Error :=
  mkError None "storage failure" None.

Definition INSUFFICIENT_STOCK : string := "Insufficient stock available".
Definition DUPLICATE_INVOICE : string := "Invoice number already exists".

Definition InsufficientStock : Error :=
  createError 400 INSUFFICIENT_STOCK "INSUFFICIENT_STOCK".

(** [res.status(error.status || 500)
        .json({ success: false, message: error.message || d })] *)
Definition errorResponse (e : Error) (dflt : string) : Response :=
  Resp (match e_status e with Some s => s | None => 500%nat end)
       false
       (if String.eqb (e_message e) "" then dflt else e_message e).

Inductive Outcome (A : Type) :=
  | Returned (a : A)
  | Thrown (e : Error).
Arguments Returned {A} a.
Arguments Thrown {A} e.

Definition M (A : Type) : Type := World -> Outcome A * World.

Definition ret {A} (a : A) : M A := fun w => (Returned a, w).
Definition throw {A} (e : Error) : M A := fun w => (Thrown e, w).
Definition bind {A B} (m : M A) (k : A -> M B) : M B :=
  fun w =>
    match m w with
    | (Returned a, w') => k a w'
    | (Thrown e, w') => (Thrown e, w')
    end.
Definition get : M World := fun w => (Returned w, w).
Definition modify (f : World -> World) : M unit := fun w => (Returned tt, f w).

Notation "x <- m ;; k" := (bind m (fun x => k))
  (at level 100, m at next level, right associativity).
Notation "m ;;; k" := (bind m (fun _ => k))
  (at level 100, right associativity).

(** [try { body } catch (error) { handler }] *)
Definition tryCatch {A} (body : M A) (handler : Error -> M A) : M A :=
  fun w =>
    match body w with
    | (Returned a, w') => (Returned a, w')
    | (Thrown e, w') => handler e w'
    end.

(** A handler whose [catch] turns every exception into a response. *)
Definition respond (body : M Response) (dflt : string) : World -> Response * World :=
  fun w =>
    match body w with
    | (Returned r, w') => (r, w')
    | (Thrown e, w') => (errorResponse e dflt, w')
    end.

(** [startOptionalSession] ... [commitTransaction] / [abortTransaction]:
    with transaction support every write of a request that does not
    commit is discarded; without it the writes made so far stay. *)
Definition withSession (env : Env) (body : M Response) (dflt : string)
  : World -> Response * World :=
  fun w =>
    match body w with
    | (Returned r, w') =>
        if supportsTransactions env
        then (r, if isSuccess r then w' else w)
        else (r, w')
    | (Thrown e, w') =>
        (errorResponse e dflt, if supportsTransactions env then w else w')
    end.

(** A save the storage layer may refuse. *)
Definition save (env : Env) (p : SavePoint) (f : World -> World) : M unit :=
  if saveFails env p then throw storageError else modify f.

(** ** World updates *)

Definition setLedgers (f : gmap nat Ledger -> gmap nat Ledger) (w : World) : World :=
  mkWorld (f (ledgers w)) (vouchers w) (settlements w) (karigars w)
          (stock w) (stockInputs w) (user w) (nextId w).
Definition setVouchers (f : gmap nat Voucher -> gmap nat Voucher) (w : World) : World :=
  mkWorld (ledgers w) (f (vouchers w)) (settlements w) (karigars w)
          (stock w) (stockInputs w) (user w) (nextId w).
Definition setSettlements (f : gmap nat Settlement -> gmap nat Settlement) (w : World) : World :=
  mkWorld (ledgers w) (vouchers w) (f (settlements w)) (karigars w)
          (stock w) (stockInputs w) (user w) (nextId w).
Definition setKarigars (f : gmap nat Karigar -> gmap nat Karigar) (w : World) : World :=
  mkWorld (ledgers w) (vouchers w) (settlements w) (f (karigars w))
          (stock w) (stockInputs w) (user w) (nextId w).
Definition setStock (s : option Stock) (w : World) : World :=
  mkWorld (ledgers w) (vouchers w) (settlements w) (karigars w)
          s (stockInputs w) (user w) (nextId w).
Definition setStockInputs (l : list StockInput) (w : World) : World :=
  mkWorld (ledgers w) (vouchers w) (settlements w) (karigars w)
          (stock w) l (user w) (nextId w).
Definition setUser (u : option User) (w : World) : World :=
  mkWorld (ledgers w) (vouchers w) (settlements w) (karigars w)
          (stock w) (stockInputs w) u (nextId w).
Definition bumpId (w : World) : World :=
  mkWorld (ledgers w) (vouchers w) (settlements w) (karigars w)
          (stock w) (stockInputs w) (user w) (S (nextId w)).

(** A new document: the next free id. *)
Definition freshId : M nat :=
  fun w => (Returned (nextId w), bumpId w).

(** ** Stock ledger (stock routes) *)

Module StockLedger.

Definition MIN_ALLOWED : Q := 0.

(** [toNumber(value, fieldName)]: [Number(value ?? 0)], throwing on a
    value that is not finite. *)
Definition toNumber (value : JsValue) (fieldName : string) : M Q :=
  match value with
  | JUndefined => ret 0
  | JNumber n => ret n
  | JNonFinite =>
      throw (createError 400 ("Invalid " ++ fieldName ++ " value") "INVALID_NUMBER")
  end.

(** Lazily creates the zero-valued stock document. *)
Definition ensureUserStock : M Stock :=
  w <- get ;;
  match stock w with
  | Some s => ret s
  | None =>
      let created := mkStock 0 0 0 in
      modify (setStock (Some created)) ;;; ret created
  end.

(** The guarded decrement: one conditional update
    [{gold: {$gte: gold}, silver: {$gte: silver}}] with
    [$inc: {gold: -gold, silver: -silver}]. *)
Definition deductFromStock (goldFW silverFW : Q) : M Stock :=
  gold_ <- toNumber (JNumber goldFW) "gold fine weight" ;;
  silver_ <- toNumber (JNumber silverFW) "silver fine weight" ;;
  if Qltb gold_ 0 || Qltb silver_ 0 then
    throw (createError 400 "Stock deduction values cannot be negative" "INVALID_STOCK")
  else
    ensureUserStock ;;;
    w <- get ;;
    match stock w with
    | Some s =>
        if Qle_bool gold_ (gold s) && Qle_bool silver_ (silver s) then
          let s' := mkStock (gold s + - gold_) (silver s + - silver_) (cashInHand s) in
          modify (setStock (Some s')) ;;; ret s'
        else throw InsufficientStock
    | None => throw InsufficientStock
    end.

Definition addBackToStock (goldFW silverFW : Q) : M (option Stock) :=
  gold_ <- toNumber (JNumber goldFW) "gold fine weight" ;;
  silver_ <- toNumber (JNumber silverFW) "silver fine weight" ;;
  if Qltb gold_ 0 || Qltb silver_ 0 then
    throw (createError 400 "Stock add-back values cannot be negative" "INVALID_STOCK")
  else
    ensureUserStock ;;;
    w <- get ;;
    match stock w with
    | Some s =>
        let s' := mkStock (gold s + gold_) (silver s + silver_) (cashInHand s) in
        modify (setStock (Some s')) ;;; ret (Some s')
    | None => ret None
    end.

(** Body of [POST /add]. *)
Record AddRequest := mkAddRequest {
  add_gold : JsValue;
  add_silver : JsValue;
  add_cashAmount : JsValue;
  add_amount : JsValue;
  add_dateTime : option Z
}.

(** [req.body.cashAmount ?? req.body.amount] *)
Definition coalesce (a b : JsValue) : JsValue :=
  match a with
  | JUndefined => b
  | _ => a
  end.

Definition postAdd (env : Env) (req : AddRequest) : World -> Response * World :=
  withSession env
    (gold_ <- toNumber (add_gold req) "gold" ;;
     silver_ <- toNumber (add_silver req) "silver" ;;
     cashAmount <- toNumber (coalesce (add_cashAmount req) (add_amount req)) "cash amount" ;;
     let inputDate := match add_dateTime req with Some d => d | None => now env end in
     if Qltb gold_ 0 || Qltb silver_ 0 || Qltb cashAmount 0 then
       throw (createError 400 "Stock/Cash amounts cannot be negative" "INVALID_STOCK")
     else
       w <- get ;;
       (match stock w with
        | Some s =>
            modify (setStock (Some (mkStock (gold s + gold_) (silver s + silver_)
                                            (cashInHand s + - cashAmount))))
        | None => ret tt
        end) ;;;
       w1 <- get ;;
       save env SaveStockInput
         (setStockInputs (stockInputs w1 ++ [mkStockInput gold_ silver_ cashAmount inputDate])) ;;;
       ret (Resp 200 true "ok"))
    "Error adding stock".

(** [StockInput.findOne(...).sort({ date: -1 })]: position and value of
    the input with the greatest date (the earliest stored among equals). *)
Fixpoint lastInputFrom (l : list StockInput) (i : nat) (best : nat * StockInput)
  : nat * StockInput :=
  match l with
  | [] => best
  | x :: tl =>
      lastInputFrom tl (S i)
        (if Z.ltb (si_date (snd best)) (si_date x) then (i, x) else best)
  end.

Definition findLastInput (l : list StockInput) : option (nat * StockInput) :=
  match l with
  | [] => None
  | x :: tl => Some (lastInputFrom tl 1 (0%nat, x))
  end.

Fixpoint deleteAt {A} (i : nat) (l : list A) : list A :=
  match l, i with
  | [], _ => []
  | _ :: tl, O => tl
  | x :: tl, S j => x :: deleteAt j tl
  end.

Definition postUndo (env : Env) : World -> Response * World :=
  withSession env
    (w <- get ;;
     match findLastInput (stockInputs w) with
     | None => throw (createError 404 "No stock input to undo." "NO_STOCK_INPUT")
     | Some (idx, lastInput) =>
         st <- ensureUserStock ;;
         let updatedGold := gold st - si_gold lastInput in
         let updatedSilver := silver st - si_silver lastInput in
         let cashAmount := si_cashAmount lastInput in
         if Qltb updatedGold MIN_ALLOWED || Qltb updatedSilver MIN_ALLOWED then
           throw (createError 400 INSUFFICIENT_STOCK "INSUFFICIENT_STOCK")
         else
           save env SaveStock
             (setStock (Some (mkStock updatedGold updatedSilver (cashInHand st + cashAmount)))) ;;;
           w1 <- get ;;
           save env SaveStockInput (setStockInputs (deleteAt idx (stockInputs w1))) ;;;
           ret (Resp 200 true "ok")
     end)
    "Error undoing last stock input".

End StockLedger.

Abbreviation deductFromStock := StockLedger.deductFromStock.
Abbreviation addBackToStock := StockLedger.addBackToStock.

(** ** Reversal window *)

Section ReversalWindow.
Variable env : Env.

Definition getReversalWindowHours : Q :=
  let configured := toNumber (WINDOW_HOURS env) 48 in
  if Qltb 0 configured then configured else 48.

(** [canReverseForVoucher], [canReverseForSettlement] and
    [canReverseForKarigar] are the same function of [createdAt]. *)
Definition canReverse (createdAt : option Z) : bool :=
  match createdAt with
  | None => false
  | Some referenceTime =>
      let elapsedMs := inject_Z (now env - referenceTime) in
      let allowedMs := getReversalWindowHours * 60 * 60 * 1000 in
      Qle_bool elapsedMs allowedMs
  end.
End ReversalWindow.

(** ** Karigar routes *)

Module KarigarRoutes.

Record CreateRequest := mkCreateRequest {
  r_type : Field KarigarType;
  r_karigarName : string;
  r_itemName : string;
  r_metalType : Field Metal;
  r_fineWeight : JsValue;
  r_chargeAmount : JsValue
}.

Definition goldPart (m : Metal) (w : Q) : Q :=
  match m with Gold => w | Silver => 0 end.
Definition silverPart (m : Metal) (w : Q) : Q :=
  match m with Silver => w | Gold => 0 end.

Definition postKarigar (env : Env) (req : CreateRequest) : World -> Response * World :=
  respond
    (let fineWeight_ := toNumber (r_fineWeight req) 0 in
     let chargeAmount_ := Qmax0 (toNumber (r_chargeAmount req) 0) in
     match r_type req, r_metalType req with
     | Missing, _ | _, Missing =>
         ret (Resp 400 false "type, karigarName, itemName and metalType are required")
     | Invalid, _ =>
         if String.eqb (r_karigarName req) "" || String.eqb (r_itemName req) ""
         then ret (Resp 400 false "type, karigarName, itemName and metalType are required")
         else ret (Resp 400 false "Type must be either given or received")
     | Valid _, Invalid =>
         if String.eqb (r_karigarName req) "" || String.eqb (r_itemName req) ""
         then ret (Resp 400 false "type, karigarName, itemName and metalType are required")
         else ret (Resp 400 false "metalType must be either gold or silver")
     | Valid ty, Valid metal =>
         if String.eqb (r_karigarName req) "" || String.eqb (r_itemName req) ""
         then ret (Resp 400 false "type, karigarName, itemName and metalType are required")
         else if Qle_bool fineWeight_ 0
         then ret (Resp 400 false "fineWeight must be greater than 0")
         else
           (match ty with
            | Given =>
                deductFromStock (goldPart metal fineWeight_) (silverPart metal fineWeight_) ;;; ret tt
            | Received =>
                addBackToStock (goldPart metal fineWeight_) (silverPart metal fineWeight_) ;;; ret tt
            end) ;;;
           id <- freshId ;;
           save env SaveKarigar
             (setKarigars (insert id (mkKarigar ty metal fineWeight_ chargeAmount_ false
                                               (Some (now env))))) ;;;
           ret (Resp 201 true "Transaction created successfully")
     end)
    "Failed to create transaction".

Definition deleteKarigar (env : Env) (id : nat) : World -> Response * World :=
  respond
    (w <- get ;;
     match karigars w !! id with
     | None => ret (Resp 404 false "Transaction not found")
     | Some transaction =>
         if isDeleted transaction then ret (Resp 400 false "Transaction already deleted")
         else if negb (canReverse env (k_createdAt transaction))
         then ret (Resp 400 false "Transaction cannot be deleted after the reversal window")
         else
           (match k_type transaction with
            | Given =>
                addBackToStock (goldPart (k_metalType transaction) (k_fineWeight transaction))
                               (silverPart (k_metalType transaction) (k_fineWeight transaction)) ;;; ret tt
            | Received =>
                deductFromStock (goldPart (k_metalType transaction) (k_fineWeight transaction))
                                (silverPart (k_metalType transaction) (k_fineWeight transaction)) ;;; ret tt
            end) ;;;
           save env SaveKarigar
             (setKarigars (insert id (mkKarigar (k_type transaction) (k_metalType transaction)
                                               (k_fineWeight transaction) (chargeAmount transaction)
                                               true (k_createdAt transaction)))) ;;;
           ret (Resp 200 true "Transaction deleted successfully and stock reversed")
     end)
    "Failed to delete transaction".

End KarigarRoutes.

(** ** Balance model *)

(** [calculateUnifiedAmount]: credit plus cash. *)
Definition calculateUnifiedAmount (b : Balances) : Q :=
  creditBalance b + cashBalance b.

(** [resetBalances()] *)
Definition resetBalances : Balances := mkBalances 0 0 0 0 0.

Definition setGoldFineWeight (x : Q) (b : Balances) : Balances :=
  mkBalances x (silverFineWeight b) (amount b) (cashBalance b) (creditBalance b).
Definition setSilverFineWeight (x : Q) (b : Balances) : Balances :=
  mkBalances (goldFineWeight b) x (amount b) (cashBalance b) (creditBalance b).
Definition setAmount (x : Q) (b : Balances) : Balances :=
  mkBalances (goldFineWeight b) (silverFineWeight b) x (cashBalance b) (creditBalance b).
Definition setCashBalance (x : Q) (b : Balances) : Balances :=
  mkBalances (goldFineWeight b) (silverFineWeight b) (amount b) x (creditBalance b).
Definition setCreditBalance (x : Q) (b : Balances) : Balances :=
  mkBalances (goldFineWeight b) (silverFineWeight b) (amount b) (cashBalance b) x.

(** [ledger.balances.amount = calculateUnifiedAmount(ledger.balances)] *)
Definition unify (b : Balances) : Balances :=
  setAmount (calculateUnifiedAmount b) b.

Definition setFine (m : Metal) (x : Q) (b : Balances) : Balances :=
  match m with
  | Gold => setGoldFineWeight x b
  | Silver => setSilverFineWeight x b
  end.
Definition getFine (m : Metal) (b : Balances) : Q :=
  match m with
  | Gold => goldFineWeight b
  | Silver => silverFineWeight b
  end.

Definition withBalances (b : Balances) (l : Ledger) : Ledger :=
  mkLedger (ledgerName l) (ledgerType l) (openingBalance l) b (hasVouchers l).
Definition withHasVouchers (h : bool) (l : Ledger) : Ledger :=
  mkLedger (ledgerName l) (ledgerType l) (openingBalance l) (balances l) h.

(** ** Settlement routes *)

Module SettlementRoutes.
Import KarigarRoutes.

Record CreateRequest := mkCreateRequest {
  r_ledgerId : option nat;
  r_metalType : Field Metal;
  r_metalRate : JsValue;
  r_direction : Field Direction;
  r_isMoneyConversion : bool;
  r_fineGiven : JsValue;
  r_amount : JsValue
}.

Inductive StockAction := ActDeduct | ActAdd.

(** The inverse stock call of the two compensation sites. *)
Definition inverseStockCall (act : StockAction) (metal : Metal) (fine : Q) : M unit :=
  match act with
  | ActDeduct => addBackToStock (goldPart metal fine) (silverPart metal fine) ;;; ret tt
  | ActAdd => deductFromStock (goldPart metal fine) (silverPart metal fine) ;;; ret tt
  end.

(** The stock step of the create handler; [stockAdjusted] becomes true
    only when the call has returned. *)
Definition adjustStock (dir : Direction) (isMoneyConversion : bool)
           (metal : Metal) (fine : Q) : M StockAction :=
  match dir, isMoneyConversion with
  | Payment, false =>
      deductFromStock (goldPart metal fine) (silverPart metal fine) ;;; ret ActDeduct
  | Receipt, false =>
      addBackToStock (goldPart metal fine) (silverPart metal fine) ;;; ret ActAdd
  | _, true =>
      addBackToStock (goldPart metal fine) (silverPart metal fine) ;;; ret ActAdd
  end.

Definition multiplier (dir : Direction) : Q :=
  match dir with Receipt => 1 | Payment => -1 end.

(** Everything after the stock step: the negative-result rejection with
    its compensation, then the two saves. *)
Definition finishCreate (env : Env) (ledgerId : nat) (ledger : Ledger)
           (metal : Metal) (dir : Direction) (isMoneyConversion : bool)
           (rate fine amount_ balanceBeforeFine : Q) (act : StockAction) : M Response :=
  let fineMultiplier := multiplier dir in
  let amountMultiplier := multiplier dir in
  let finalFineMultiplier := if isMoneyConversion then 1 else fineMultiplier in
  let finalAmountMultiplier := if isMoneyConversion then -1 else amountMultiplier in
  let updatedFine := balanceBeforeFine + finalFineMultiplier * fine in
  let updatedCredit := creditBalance (balances ledger) + finalAmountMultiplier * amount_ in
  if Qltb updatedFine 0 || Qltb updatedCredit 0 then
    inverseStockCall act metal fine ;;;
    ret (Resp 400 false "Invalid settlement resulting in negative balance")
  else
    id <- freshId ;;
    save env SaveSettlement
      (setSettlements (insert id (mkSettlement ledgerId metal balanceBeforeFine rate fine
                                               amount_ dir updatedCredit updatedFine
                                               (Some (now env))))) ;;;
    let b1 := setFine metal updatedFine (balances ledger) in
    let b2 := setCreditBalance updatedCredit b1 in
    let b3 := unify b2 in
    save env SaveLedger (setLedgers (insert ledgerId (withBalances b3 ledger))) ;;;
    ret (Resp 201 true "Settlement created successfully").

Definition postSettlement (env : Env) (req : CreateRequest) : World -> Response * World :=
  respond
    (let fine := toNumber (r_fineGiven req) 0 in
     let rate := toNumber (r_metalRate req) 0 in
     let requestAmount := toNumber (r_amount req) 0 in
     let isMoneyConversion := r_isMoneyConversion req in
     match r_ledgerId req, r_metalType req, r_direction req with
     | None, _, _ | _, Missing, _ | _, Invalid, _ | _, _, Invalid =>
         ret (Resp 400 false "ledgerId, metalType and direction are required")
     | Some ledgerId, Valid metal, dirField =>
         let dir := match dirField with Valid d => d | _ => Payment end in
         w <- get ;;
         match ledgers w !! ledgerId with
         | None => ret (Resp 404 false "Ledger not found")
         | Some ledger =>
             let balanceBeforeFine := getFine metal (balances ledger) in
             let amount_ := if isMoneyConversion then requestAmount else fine * rate in
             if isMoneyConversion && Qltb (creditBalance (balances ledger)) amount_ then
               ret (Resp 400 false "Insufficient cash balance for money conversion")
             else if negb isMoneyConversion
                     && match dir with Payment => Qltb balanceBeforeFine fine | Receipt => false end then
               ret (Resp 400 false "Insufficient balance for settlement")
             else if negb isMoneyConversion
                     && match dir with
                        | Payment => Qltb (creditBalance (balances ledger)) amount_
                        | Receipt => false
                        end then
               ret (Resp 400 false "Settlement amount exceeds pending credit balance")
             else
               act <- adjustStock dir isMoneyConversion metal fine ;;
               tryCatch
                 (finishCreate env ledgerId ledger metal dir isMoneyConversion
                               rate fine amount_ balanceBeforeFine act)
                 (fun error =>
                    tryCatch (inverseStockCall act metal fine) (fun rollbackError => ret tt) ;;;
                    throw error)
         end
     end)
    "Server error creating settlement".

Definition deleteSettlement (env : Env) (id : nat) : World -> Response * World :=
  respond
    (w <- get ;;
     match settlements w !! id with
     | None => ret (Resp 404 false "Settlement not found")
     | Some settlement =>
         if negb (canReverse env (s_createdAt settlement)) then
           ret (Resp 400 false "Settlement cannot be deleted after the reversal window")
         else
           (match ledgers w !! s_ledgerId settlement with
            | Some ledger =>
                let fineMultiplier := match direction settlement with Receipt => -1 | Payment => 1 end in
                let amountMultiplier := match direction settlement with Receipt => -1 | Payment => 1 end in
                let metal := s_metalType settlement in
                let b1 := setFine metal (getFine metal (balances ledger)
                                         + fineMultiplier * fineGiven settlement) (balances ledger) in
                let b2 := setCreditBalance (creditBalance b1 + amountMultiplier * s_amount settlement) b1 in
                let b3 := unify b2 in
                save env SaveLedger
                  (setLedgers (insert (s_ledgerId settlement) (withBalances b3 ledger)))
            | None => ret tt
            end) ;;;
           (match direction settlement with
            | Payment =>
                addBackToStock (goldPart (s_metalType settlement) (fineGiven settlement))
                               (silverPart (s_metalType settlement) (fineGiven settlement)) ;;; ret tt
            | Receipt =>
                deductFromStock (goldPart (s_metalType settlement) (fineGiven settlement))
                                (silverPart (s_metalType settlement) (fineGiven settlement)) ;;; ret tt
            end) ;;;
           modify (setSettlements (delete id)) ;;;
           ret (Resp 200 true "Settlement deleted successfully")
     end)
    "Server error deleting settlement".

End SettlementRoutes.

(** ** Queries over the tenant's documents *)

Definition vouchersOfLedger (ledgerId : nat) (w : World) : gmap nat Voucher :=
  filter (fun kv => v_ledgerId (snd kv) = ledgerId) (vouchers w).
Definition settlementsOfLedger (ledgerId : nat) (w : World) : gmap nat Settlement :=
  filter (fun kv => s_ledgerId (snd kv) = ledgerId) (settlements w).
Definition activeVouchersOfLedger (ledgerId : nat) (w : World) : gmap nat Voucher :=
  filter (fun kv => v_ledgerId (snd kv) = ledgerId /\ status (snd kv) = Active) (vouchers w).

(** ** Ledger routes *)

Module LedgerRoutes.

Record OpeningRequest := mkOpeningRequest {
  or_amount : JsValue;
  or_goldFineWeight : JsValue;
  or_silverFineWeight : JsValue
}.

Record LedgerRequest := mkLedgerRequest {
  r_name : option string;
  r_ledgerType : Field LedgerType;
  r_openingBalance : option OpeningRequest;
  r_oldBalAmount : option JsValue;
  r_oldBalGold : option JsValue;
  r_oldBalSilver : option JsValue
}.

Definition orUndefined (v : option JsValue) : JsValue :=
  match v with Some x => x | None => JUndefined end.

(** Accepts the nested [openingBalance] payload and the legacy
    [oldBal*] fields. *)
Definition incomingOpeningBalance (req : LedgerRequest) : option OpeningRequest :=
  match r_openingBalance req with
  | Some ob => Some ob
  | None =>
      match r_oldBalAmount req, r_oldBalGold req, r_oldBalSilver req with
      | None, None, None => None
      | a, g, s => Some (mkOpeningRequest (orUndefined a) (orUndefined g) (orUndefined s))
      end
  end.

(** The three parsed opening values; a NaN among them makes the
    document fail validation when it is written. *)
Definition parseOpening (ob : option OpeningRequest) : M OpeningBalance :=
  let field (f : OpeningRequest -> JsValue) :=
    match ob with Some o => f o | None => JUndefined end in
  match ledgerToNumber (field or_amount),
        ledgerToNumber (field or_goldFineWeight),
        ledgerToNumber (field or_silverFineWeight) with
  | Some a, Some g, Some s => ret (mkOpening a g s)
  | _, _, _ => throw storageError
  end.

Definition postLedger (env : Env) (req : LedgerRequest) : World -> Response * World :=
  respond
    (match r_name req with
     | None => ret (Resp 400 false "Name is required")
     | Some name =>
         if String.eqb name "" then ret (Resp 400 false "Name is required") else
         ob <- parseOpening (incomingOpeningBalance req) ;;
         ty <- match r_ledgerType req with
               | Missing => ret Regular
               | Valid t => ret t
               | Invalid => throw storageError
               end ;;
         let ledger :=
           mkLedger name ty ob
             (mkBalances (ob_goldFineWeight ob) (ob_silverFineWeight ob)
                         (ob_amount ob) (ob_amount ob) 0)
             false in
         id <- freshId ;;
         save env SaveLedger (setLedgers (insert id ledger)) ;;;
         ret (Resp 201 true "Ledger created successfully")
     end)
    "Server error creating ledger".

Definition patchLedger (env : Env) (id : nat) (req : LedgerRequest) : World -> Response * World :=
  respond
    (updatesOpening <-
       match incomingOpeningBalance req with
       | Some o => ob <- parseOpening (Some o) ;; ret (Some ob)
       | None => ret None
       end ;;
     w <- get ;;
     match ledgers w !! id with
     | None => ret (Resp 404 false "Ledger not found")
     | Some old =>
         let ledger :=
           mkLedger (match r_name req with Some n => n | None => ledgerName old end)
                    (match r_ledgerType req with Valid t => t | _ => ledgerType old end)
                    (match updatesOpening with Some ob => ob | None => openingBalance old end)
                    (balances old) (hasVouchers old) in
         save env SaveLedger (setLedgers (insert id ledger)) ;;;
         match updatesOpening with
         | None => ret (Resp 200 true "Ledger updated successfully")
         | Some ob =>
             w1 <- get ;;
             let voucherCount := size (vouchersOfLedger id w1) in
             let settlementCount := size (settlementsOfLedger id w1) in
             if Nat.eqb voucherCount 0 && Nat.eqb settlementCount 0 then
               let b :=
                 match ledgerType ledger with
                 | Gst => resetBalances
                 | Regular =>
                     mkBalances (ob_goldFineWeight ob) (ob_silverFineWeight ob)
                                (ob_amount ob) (ob_amount ob) 0
                 end in
               save env SaveLedger (setLedgers (insert id (withBalances b ledger))) ;;;
               ret (Resp 200 true "Ledger updated successfully")
             else ret (Resp 200 true "Ledger updated successfully")
         end
     end)
    "Server error updating ledger".

Definition deleteLedger (env : Env) (id : nat) : World -> Response * World :=
  respond
    (w <- get ;;
     match ledgers w !! id with
     | None => ret (Resp 404 false "Ledger not found")
     | Some _ =>
         if negb (Nat.eqb (size (vouchersOfLedger id w)) 0)
            || negb (Nat.eqb (size (settlementsOfLedger id w)) 0) then
           ret (Resp 400 false "Cannot delete ledger with transactions. Delete vouchers/settlements first.")
         else
           modify (setLedgers (delete id)) ;;;
           ret (Resp 200 true "Ledger deleted successfully")
     end)
    "Server error deleting ledger".

(** [DELETE /:id/vouchers]: purge the ledger's transactions. *)
Definition deleteLedgerVouchers (env : Env) (id : nat) : World -> Response * World :=
  respond
    (w <- get ;;
     match ledgers w !! id with
     | None => ret (Resp 404 false "Ledger not found")
     | Some ledger =>
         modify (setVouchers (filter (fun kv => v_ledgerId (snd kv) <> id))) ;;;
         modify (setSettlements (filter (fun kv => s_ledgerId (snd kv) <> id))) ;;;
         save env SaveLedger
           (setLedgers (insert id (withHasVouchers false (withBalances resetBalances ledger)))) ;;;
         ret (Resp 200 true "All vouchers and settlements deleted successfully")
     end)
    "Server error deleting vouchers".

Definition withTotal (t : Q) (v : Voucher) : Voucher :=
  mkVoucher (voucherNumber v) (v_ledgerId v) (v_invoiceType v) (v_invoiceNumber v)
            (paymentType v) (v_goldRate v) (v_silverRate v) (items v)
            (oldBalance_amount v) (currentBalance_amount v)
            (stoneAmount v) (fineAmount v) (totalGST v) t (cashReceived v)
            (status v) (voucherType v) (previousLedgerState v) (stockAdjusted v)
            (stockAdjustment v) (stockRestored v) (v_createdAt v).

(** The self-heal of a stored zero [total]. *)
Definition fixTotal (v : Voucher) : Voucher :=
  if isZero (total v) then
    let itemsTotal := fold_left (fun sum item => sum + itemAmount item) (items v) 0 in
    withTotal (itemsTotal + stoneAmount v + fineAmount v + totalGST v) v
  else v.

(** One active voucher replayed onto the balances being rebuilt. *)
Definition replayVoucher (b : Balances) (voucher : Voucher) : Balances :=
  match v_invoiceType voucher with
  | GstInvoice => b
  | Normal =>
      match paymentType voucher with
      | credit =>
          let b' :=
            fold_left
              (fun acc item =>
                 match metalType item with
                 | Gold => setGoldFineWeight (goldFineWeight acc + fineWeight item) acc
                 | Silver => setSilverFineWeight (silverFineWeight acc + fineWeight item) acc
                 end)
              (items voucher) b in
          setCashBalance (cashBalance b' + total voucher) b'
      | cash =>
          let balanceDelta := total voucher - cashReceived voucher in
          setCashBalance (cashBalance b + balanceDelta) b
      | add_cash => setCashBalance (cashBalance b - cashReceived voucher) b
      | add_gold => setGoldFineWeight (goldFineWeight b - cashReceived voucher) b
      | add_silver => setSilverFineWeight (silverFineWeight b - cashReceived voucher) b
      | money_to_gold =>
          let amountPaid := cashReceived voucher in
          let goldRate := orElse (v_goldRate voucher) 1 in
          setGoldFineWeight (goldFineWeight b - amountPaid / goldRate) b
      | money_to_silver =>
          let amountPaid := cashReceived voucher in
          let silverRate := orElse (v_silverRate voucher) 1 in
          setSilverFineWeight (silverFineWeight b - amountPaid / silverRate) b
      end
  end.

Definition replaySettlement (b : Balances) (settlement : Settlement) : Balances :=
  let fine := fineGiven settlement in
  let amount_ := s_amount settlement in
  let multiplier := match direction settlement with Receipt => 1 | Payment => -1 end in
  let b' := setFine (s_metalType settlement)
                    (getFine (s_metalType settlement) b + multiplier * fine) b in
  setCreditBalance (creditBalance b' + multiplier * amount_) b'.

(** [POST /:id/recalculate-balance]: full replay from the opening
    balance; documents are visited in storage order. *)
Definition postRecalculateBalance (env : Env) (id : nat) : World -> Response * World :=
  respond
    (w <- get ;;
     match ledgers w !! id with
     | None => ret (Resp 404 false "Ledger not found")
     | Some ledger =>
         let found := activeVouchersOfLedger id w in
         (if existsb (fun v => isZero (total v)) (snd <$> map_to_list found)
          then save env SaveVoucher (setVouchers (fun m => (fixTotal <$> found) ∪ m))
          else ret tt) ;;;
         let activeVouchers := snd <$> map_to_list (fixTotal <$> found) in
         let ledgerSettlements := snd <$> map_to_list (settlementsOfLedger id w) in
         let hasAny := negb (Nat.eqb (length activeVouchers) 0) in
         match ledgerType ledger with
         | Gst =>
             save env SaveLedger
               (setLedgers (insert id (withHasVouchers hasAny (withBalances resetBalances ledger)))) ;;;
             ret (Resp 200 true "Ledger is GST type, balances remains zero")
         | Regular =>
             let ob := openingBalance ledger in
             let b0 := mkBalances (ob_goldFineWeight ob) (ob_silverFineWeight ob) 0 (ob_amount ob) 0 in
             let b1 := fold_left replayVoucher activeVouchers b0 in
             let b2 := fold_left replaySettlement ledgerSettlements b1 in
             let b3 := unify b2 in
             save env SaveLedger
               (setLedgers (insert id (withHasVouchers hasAny (withBalances b3 ledger)))) ;;;
             ret (Resp 200 true "Balance recalculated successfully")
         end
     end)
    "Server error recalculating balance".

End LedgerRoutes.

(** ** Voucher routes: helpers *)

Module VoucherRoutes.

Inductive GstType := IGST | CGST_SGST.

Record RawItem := mkRawItem {
  ri_itemName : string;
  ri_metalType : Field Metal;
  ri_netWeight : JsValue;
  ri_fineWeight : JsValue;
  ri_amount : JsValue
}.

Record VoucherRequest := mkVoucherRequest {
  r_ledgerId : option nat;
  r_paymentType : Field PaymentType;
  r_invoiceType : InvoiceType;
  r_invoiceNumber : string;
  r_goldRate : JsValue;
  r_silverRate : JsValue;
  r_items : option (list RawItem);
  r_stoneAmount : JsValue;
  r_fineAmount : JsValue;
  r_voucherNumber : string;
  r_cashReceived : JsValue;
  r_gstType : Field GstType;
  r_gstRate : JsValue;
  r_voucherType : Field VoucherType
}.

(** [calculateGSTBreakdown(...).totalGST] *)
Definition calculateGSTBreakdown (taxableAmount gstRate : Q) (gstType : Field GstType) : Q :=
  let rate := gstRate in
  let taxable := taxableAmount in
  if isZero rate || isZero taxable then 0 else
  match gstType with
  | Valid IGST => (taxable * rate) / 100
  | Valid CGST_SGST =>
      let halfRate := rate / 2 in
      let cgst := (taxable * halfRate) / 100 in
      let sgst := (taxable * halfRate) / 100 in
      cgst + sgst
  | Missing | Invalid => 0
  end.

Definition getCashBalanceDelta (total_ cashReceived_ : Q) : Q :=
  total_ - cashReceived_.

Definition getFineByMetal (its : list Item) : Q * Q :=
  fold_left
    (fun acc item =>
       let fine := fineWeight item in
       match metalType item with
       | Gold => (fst acc + fine, snd acc)
       | Silver => (fst acc, snd acc + fine)
       end)
    its (0, 0).

Definition hasNonZeroStockAdjustment (adjustment : Q * Q) : bool :=
  negb (isZero (fst adjustment)) || negb (isZero (snd adjustment)).

Definition applyStockAdjustmentForVoucher (adjustment : Q * Q)
           (vt : VoucherType) (reverse : bool) : M unit :=
  let gold_ := fst adjustment in
  let silver_ := snd adjustment in
  let positiveGold := Qmax0 gold_ in
  let positiveSilver := Qmax0 silver_ in
  let negativeGold := Qmax0 (- gold_) in
  let negativeSilver := Qmax0 (- silver_) in
  let isPurchaseVoucher := match vt with Purchase => true | Sale => false end in
  let shouldDeductPositive := if reverse then isPurchaseVoucher else negb isPurchaseVoucher in
  let shouldDeductNegative := if reverse then negb isPurchaseVoucher else isPurchaseVoucher in
  (if Qltb 0 positiveGold || Qltb 0 positiveSilver then
     if shouldDeductPositive
     then deductFromStock positiveGold positiveSilver ;;; ret tt
     else addBackToStock positiveGold positiveSilver ;;; ret tt
   else ret tt) ;;;
  (if Qltb 0 negativeGold || Qltb 0 negativeSilver then
     if shouldDeductNegative
     then deductFromStock negativeGold negativeSilver ;;; ret tt
     else addBackToStock negativeGold negativeSilver ;;; ret tt
   else ret tt).

Definition isBillingType (pt : PaymentType) : bool :=
  match pt with cash | credit => true | _ => false end.
Definition isSettlementType (pt : PaymentType) : bool := negb (isBillingType pt).
Definition usesStockAdjustment (pt : PaymentType) : bool := isBillingType pt.

Definition getVoucherStockAdjustment (voucher : Voucher) : Q * Q :=
  let explicitGold := toNumberOrNull (fst (stockAdjustment voucher)) in
  let explicitSilver := toNumberOrNull (snd (stockAdjustment voucher)) in
  match explicitGold, explicitSilver with
  | None, None =>
      if negb (usesStockAdjustment (paymentType voucher)) then (0, 0)
      else getFineByMetal (items voucher)
  | g, s =>
      (match g with Some x => x | None => 0 end,
       match s with Some x => x | None => 0 end)
  end.

Definition withStockRestored (r : bool) (v : Voucher) : Voucher :=
  mkVoucher (voucherNumber v) (v_ledgerId v) (v_invoiceType v) (v_invoiceNumber v)
            (paymentType v) (v_goldRate v) (v_silverRate v) (items v)
            (oldBalance_amount v) (currentBalance_amount v)
            (stoneAmount v) (fineAmount v) (totalGST v) (total v) (cashReceived v)
            (status v) (voucherType v) (previousLedgerState v) (stockAdjusted v)
            (stockAdjustment v) r (v_createdAt v).

Definition withStatus (st : Status) (v : Voucher) : Voucher :=
  mkVoucher (voucherNumber v) (v_ledgerId v) (v_invoiceType v) (v_invoiceNumber v)
            (paymentType v) (v_goldRate v) (v_silverRate v) (items v)
            (oldBalance_amount v) (currentBalance_amount v)
            (stoneAmount v) (fineAmount v) (totalGST v) (total v) (cashReceived v)
            st (voucherType v) (previousLedgerState v) (stockAdjusted v)
            (stockAdjustment v) (stockRestored v) (v_createdAt v).

(** The arithmetic inverse used for vouchers without a snapshot. *)
Definition legacyReverse (voucher : Voucher) (ledger : Ledger) : Balances :=
  let b := balances ledger in
  match v_invoiceType voucher, ledgerType ledger with
  | GstInvoice, _ | _, Gst => b
  | Normal, Regular =>
      match paymentType voucher with
      | add_cash =>
          let amountToReverse := cashReceived voucher in
          unify (if negb (isZero (cashBalance b)) || isZero (creditBalance b)
                 then setCashBalance (cashBalance b - amountToReverse) b
                 else setCreditBalance (creditBalance b - amountToReverse) b)
      | add_gold => unify (setGoldFineWeight (goldFineWeight b + cashReceived voucher) b)
      | add_silver => unify (setSilverFineWeight (silverFineWeight b + cashReceived voucher) b)
      | money_to_gold =>
          let amountToReverse := cashReceived voucher in
          unify (setGoldFineWeight
                   (goldFineWeight b + amountToReverse / orElse (v_goldRate voucher) 1) b)
      | money_to_silver =>
          let amountToReverse := cashReceived voucher in
          unify (setSilverFineWeight
                   (silverFineWeight b + amountToReverse / orElse (v_silverRate voucher) 1) b)
      | credit =>
          let b' :=
            fold_left
              (fun acc item =>
                 match metalType item with
                 | Gold => setGoldFineWeight (goldFineWeight acc - fineWeight item) acc
                 | Silver => setSilverFineWeight (silverFineWeight acc - fineWeight item) acc
                 end)
              (items voucher) b in
          unify (setCashBalance (cashBalance b' - total voucher) b')
      | cash =>
          let balanceDelta := getCashBalanceDelta (total voucher) (cashReceived voucher) in
          unify (setCashBalance (cashBalance b - balanceDelta) b)
      end
  end.

(** The ledger half of [reverseVoucherEffects]: the snapshot when the
    voucher has one, else the arithmetic inverse. *)
Definition reversedBalances (voucher : Voucher) (ledger : Ledger) : Balances :=
  match previousLedgerState voucher with
  | Some snapshot =>
      mkBalances (goldFineWeight snapshot) (silverFineWeight snapshot)
                 (amount snapshot) (cashBalance snapshot) (creditBalance snapshot)
  | None => legacyReverse voucher ledger
  end.

(** [reverseVoucherEffects(voucher, ledger, { restoreStock, markRestored })];
    the two documents it mutates in memory are returned. *)
Definition reverseVoucherEffects (voucher : Voucher) (ledger : Ledger)
           (restoreStock markRestored : bool) : M (Voucher * Ledger) :=
  let adjustment := getVoucherStockAdjustment voucher in
  let shouldRestoreStock :=
    restoreStock && negb (stockRestored voucher) && hasNonZeroStockAdjustment adjustment in
  voucher' <-
    (if shouldRestoreStock then
       applyStockAdjustmentForVoucher adjustment (voucherType voucher) true ;;;
       ret (if markRestored then withStockRestored true voucher else voucher)
     else ret voucher) ;;
  ret (voucher', withBalances (reversedBalances voucher ledger) ledger).

(** ** Voucher routes: create and edit *)

(** [String(n)] for a voucher counter. *)
Definition stringOfNat (n : nat) : string :=
  NilZero.string_of_uint (Nat.to_uint n).

Fixpoint cleanItems (index : nat) (raw : list RawItem) : M (list Item) :=
  match raw with
  | [] => ret []
  | item :: rest =>
      match ri_metalType item with
      | Valid metal =>
          if String.eqb (ri_itemName item) "" then
            throw (badRequest ("Invalid item at row " ++ stringOfNat (index + 1)))
          else
            let cleaned :=
              mkItem (ri_itemName item) metal
                     (toNumber (ri_netWeight item) 0)
                     (toNumber (ri_fineWeight item) 0)
                     (toNumber (ri_amount item) 0) in
            tl <- cleanItems (S index) rest ;;
            ret (cleaned :: tl)
      | Missing | Invalid =>
          throw (badRequest ("Invalid item at row " ++ stringOfNat (index + 1)))
      end
  end.

(** An active voucher other than [self] that satisfies [P]. *)
Definition existsActiveVoucher (w : World) (self : option nat)
           (P : Voucher -> Prop) `{forall v, Decision (P v)} : bool :=
  negb (Nat.eqb
          (size (filter (fun kv => Some (fst kv) <> self
                                  /\ status (snd kv) = Active /\ P (snd kv))
                        (vouchers w)))
          0).

Definition oldBalanceAmount (pt : PaymentType) (b : Balances) : Q :=
  match pt with
  | cash => cashBalance b
  | credit => cashBalance b
  | add_cash => orElse (cashBalance b) (creditBalance b)
  | money_to_gold | money_to_silver => orElse (cashBalance b) (creditBalance b)
  | add_gold | add_silver => cashBalance b
  end.

Definition currentBalanceAmount (pt : PaymentType) (vt : VoucherType)
           (oldAmount total_ cashReceived_ : Q) : Q :=
  match pt with
  | credit =>
      match vt with
      | Purchase => oldAmount - total_
      | Sale => oldAmount + total_
      end
  | cash =>
      match vt with
      | Purchase => oldAmount + - (total_ - cashReceived_)
      | Sale => oldAmount + getCashBalanceDelta total_ cashReceived_
      end
  | add_cash => oldAmount - total_
  | add_gold => oldAmount
  | add_silver => oldAmount
  | money_to_gold | money_to_silver => oldAmount - total_
  end.

(** The block guarded by
    [invoiceType !== 'gst' && ledger.ledgerType !== 'gst']. *)
Definition applyVoucherBalances (invoiceType : InvoiceType) (lt : LedgerType)
           (pt : PaymentType) (vt : VoucherType) (cleanedItems : list Item)
           (currentAmount cashReceived_ : Q) (goldRate silverRate : Q)
           (b : Balances) : Balances :=
  match invoiceType, lt with
  | GstInvoice, _ | _, Gst => b
  | Normal, Regular =>
      unify
        match pt with
        | credit =>
            let b' :=
              fold_left
                (fun acc item =>
                   match metalType item, vt with
                   | Gold, Purchase => setGoldFineWeight (goldFineWeight acc - fineWeight item) acc
                   | Gold, Sale => setGoldFineWeight (goldFineWeight acc + fineWeight item) acc
                   | Silver, Purchase => setSilverFineWeight (silverFineWeight acc - fineWeight item) acc
                   | Silver, Sale => setSilverFineWeight (silverFineWeight acc + fineWeight item) acc
                   end)
                cleanedItems b in
            setCashBalance currentAmount b'
        | cash => setCashBalance currentAmount b
        | add_cash =>
            if negb (isZero (cashBalance b)) || isZero (creditBalance b)
            then setCashBalance currentAmount b
            else setCreditBalance currentAmount b
        | add_gold => setGoldFineWeight (goldFineWeight b - cashReceived_) b
        | add_silver => setSilverFineWeight (silverFineWeight b - cashReceived_) b
        | money_to_gold =>
            setGoldFineWeight (goldFineWeight b - cashReceived_ / orElse goldRate 1) b
        | money_to_silver =>
            setSilverFineWeight (silverFineWeight b - cashReceived_ / orElse silverRate 1) b
        end
  end.

(** What both handlers derive from a validated request and the ledger
    the voucher is booked on. *)
Record Booking := mkBooking {
  bk_total : Q;
  bk_totalGST : Q;
  bk_oldAmount : Q;
  bk_currentAmount : Q
}.

Definition book (req : VoucherRequest) (pt : PaymentType) (vt : VoucherType)
           (cleanedItems : list Item) (ledger : Ledger) : M Booking :=
  let totalsAmount := fold_left (fun acc item => acc + itemAmount item) cleanedItems 0 in
  let oldAmount := oldBalanceAmount pt (balances ledger) in
  let stone := toNumber (r_stoneAmount req) 0 in
  let fineAdj := toNumber (r_fineAmount req) 0 in
  let taxableValue := totalsAmount + stone in
  let gstRate := toNumber (r_gstRate req) 0 in
  match r_invoiceType req, r_gstType req with
  | GstInvoice, Missing | GstInvoice, Invalid =>
      throw (badRequest "Invalid GST type for GST invoice")
  | _, gstType =>
      let gstCalc := calculateGSTBreakdown taxableValue gstRate gstType in
      let totalBeforeGST := totalsAmount + stone + fineAdj in
      let total_ :=
        if isSettlementType pt then toNumber (r_cashReceived req) 0
        else totalBeforeGST + gstCalc in
      ret (mkBooking total_ gstCalc oldAmount
             (currentBalanceAmount pt vt oldAmount total_ (toNumber (r_cashReceived req) 0)))
  end.

(** The stock step shared by create and edit. *)
Definition bookStock (u : User) (pt : PaymentType) (vt : VoucherType)
           (cleanedItems : list Item) : M (Q * Q) :=
  match stockMode u with
  | ItemMode => ret (0, 0)
  | Bulk =>
      if usesStockAdjustment pt then
        let adjustment := getFineByMetal cleanedItems in
        (if hasNonZeroStockAdjustment adjustment
         then applyStockAdjustmentForVoucher adjustment vt false
         else ret tt) ;;;
        ret adjustment
      else ret (0, 0)
  end.

Definition snapshotOf (b : Balances) : Balances :=
  mkBalances (goldFineWeight b) (silverFineWeight b) (amount b)
             (cashBalance b) (creditBalance b).

Definition buildVoucher (req : VoucherRequest) (number : string) (ledgerId : nat)
           (pt : PaymentType) (vt : VoucherType) (cleanedItems : list Item)
           (bk : Booking) (previous : Balances) (adjustment : Q * Q)
           (createdAt : option Z) : Voucher :=
  mkVoucher number ledgerId (r_invoiceType req) (r_invoiceNumber req) pt
            (toNumber (r_goldRate req) 0) (toNumber (r_silverRate req) 0)
            cleanedItems (bk_oldAmount bk) (bk_currentAmount bk)
            (toNumber (r_stoneAmount req) 0) (toNumber (r_fineAmount req) 0)
            (match r_invoiceType req with GstInvoice => bk_totalGST bk | Normal => 0 end)
            (bk_total bk) (toNumber (r_cashReceived req) 0)
            Active vt (Some (snapshotOf previous))
            (hasNonZeroStockAdjustment adjustment)
            (Some (fst adjustment), Some (snd adjustment))
            false createdAt.

(** Checks made on the body alone, in the order of [POST /]. *)
Definition validateCreate (req : VoucherRequest) : M (nat * PaymentType * VoucherType) :=
  match r_voucherType req with
  | Invalid => throw (badRequest "Invalid voucherType. Must be sale or purchase")
  | vtField =>
      let vt := match vtField with Valid t => t | _ => Sale end in
      match r_ledgerId req with
      | None => throw (badRequest "Ledger is required")
      | Some ledgerId =>
          match r_paymentType req with
          | Missing | Invalid => throw (badRequest "Invalid paymentType")
          | Valid pt =>
              if negb (isSettlementType pt)
                 && match r_items req with None | Some [] => true | Some _ => false end
              then throw (badRequest "At least one item is required for this payment type")
              else ret (ledgerId, pt, vt)
          end
      end
  end.

Definition rawItems (req : VoucherRequest) : list RawItem :=
  match r_items req with Some l => l | None => [] end.

Definition postVoucher (env : Env) (req : VoucherRequest) : World -> Response * World :=
  withSession env
    (validated <- validateCreate req ;;
     let '(ledgerId, pt, vt) := validated in
     cleanedItems <- (if isBillingType pt then cleanItems 0 (rawItems req) else ret []) ;;
     w <- get ;;
     match ledgers w !! ledgerId with
     | None => throw (notFound "Ledger not found")
     | Some ledger =>
     match user w with
     | None => throw (notFound "User not found")
     | Some u =>
         let normalizedInvoiceNumber := r_invoiceNumber req in
         if negb (String.eqb normalizedInvoiceNumber "")
            && existsActiveVoucher w None (fun v => v_invoiceNumber v = normalizedInvoiceNumber)
         then throw (badRequest DUPLICATE_INVOICE) else
         let shouldAutoIncrement := autoIncrement u || String.eqb (r_voucherNumber req) "" in
         let finalVoucherNumber :=
           if shouldAutoIncrement
           then stringOfNat (match currentVoucherNumber u with O => 1 | n => n end)
           else r_voucherNumber req in
         if existsActiveVoucher w None (fun v => voucherNumber v = finalVoucherNumber)
         then throw (badRequest "Voucher number already exists") else
         bk <- book req pt vt cleanedItems ledger ;;
         adjustment <- bookStock u pt vt cleanedItems ;;
         let voucher :=
           buildVoucher req finalVoucherNumber ledgerId pt vt cleanedItems bk
                        (balances ledger) adjustment (Some (now env)) in
         let ledger' :=
           withHasVouchers true
             (withBalances
                (applyVoucherBalances (r_invoiceType req) (ledgerType ledger) pt vt cleanedItems
                   (bk_currentAmount bk) (toNumber (r_cashReceived req) 0)
                   (toNumber (r_goldRate req) 0) (toNumber (r_silverRate req) 0)
                   (balances ledger))
                ledger) in
         save env SaveLedger (setLedgers (insert ledgerId ledger')) ;;;
         id <- freshId ;;
         save env SaveVoucher (setVouchers (insert id voucher)) ;;;
         (if shouldAutoIncrement then
            save env SaveUser
              (setUser (Some (mkUser (stockMode u) (autoIncrement u)
                                     (currentVoucherNumber u + 1))))
          else ret tt) ;;;
         ret (Resp 201 true "Voucher created successfully")
     end end)
    "Server error creating voucher".

(** Checks made on the body alone, in the order of [PUT /:id]. *)
Definition validateEdit (req : VoucherRequest) (existing : Voucher)
  : M (nat * PaymentType * VoucherType) :=
  match r_ledgerId req with
  | None => throw (badRequest "Ledger is required")
  | Some ledgerId =>
      match r_paymentType req with
      | Missing | Invalid => throw (badRequest "Invalid paymentType")
      | Valid pt =>
          match r_voucherType req with
          | Invalid => throw (badRequest "Invalid voucherType. Must be sale or purchase")
          | vtField =>
              let vt := match vtField with Valid t => t | _ => voucherType existing end in
              if negb (isSettlementType pt)
                 && match r_items req with None | Some [] => true | Some _ => false end
              then throw (badRequest "At least one item is required for this payment type")
              else ret (ledgerId, pt, vt)
          end
      end
  end.

Definition putVoucher (env : Env) (id : nat) (req : VoucherRequest) : World -> Response * World :=
  withSession env
    (w <- get ;;
     match vouchers w !! id with
     | None => ret (Resp 404 false "Voucher not found")
     | Some existingVoucher =>
     match status existingVoucher with
     | Cancelled => throw (badRequest "Cancelled vouchers cannot be edited")
     | Active =>
     if negb (canReverse env (v_createdAt existingVoucher))
     then throw (badRequest "Voucher cannot be edited after the reversal window") else
     let previousId := v_ledgerId existingVoucher in
     match ledgers w !! previousId with
     | None => throw (notFound "Existing voucher ledger not found")
     | Some previousLedger0 =>
         reversed <- reverseVoucherEffects existingVoucher previousLedger0 true false ;;
         let previousLedger := snd reversed in
         save env SaveLedger (setLedgers (insert previousId previousLedger)) ;;;
         validated <- validateEdit req existingVoucher ;;
         let '(ledgerId, pt, vt) := validated in
         cleanedItems <- (if isBillingType pt then cleanItems 0 (rawItems req) else ret []) ;;
         w1 <- get ;;
         match (if Nat.eqb previousId ledgerId then Some previousLedger
                else ledgers w1 !! ledgerId) with
         | None => throw (notFound "Ledger not found")
         | Some targetLedger =>
             let normalizedInvoiceNumber := r_invoiceNumber req in
             if negb (String.eqb normalizedInvoiceNumber "")
                && existsActiveVoucher w1 (Some id)
                     (fun v => v_invoiceNumber v = normalizedInvoiceNumber)
             then throw (badRequest DUPLICATE_INVOICE) else
             let finalVoucherNumber :=
               if String.eqb (r_voucherNumber req) "" then voucherNumber existingVoucher
               else r_voucherNumber req in
             if String.eqb finalVoucherNumber ""
             then throw (badRequest "Voucher number is required") else
             if existsActiveVoucher w1 (Some id) (fun v => voucherNumber v = finalVoucherNumber)
             then throw (badRequest "Voucher number already exists") else
             bk <- book req pt vt cleanedItems targetLedger ;;
             match user w1 with
             | None => throw (notFound "User not found")
             | Some voucherUser =>
                 adjustment <- bookStock voucherUser pt vt cleanedItems ;;
                 let targetLedger' :=
                   withHasVouchers true
                     (withBalances
                        (applyVoucherBalances (r_invoiceType req) (ledgerType targetLedger)
                           pt vt cleanedItems
                           (bk_currentAmount bk) (toNumber (r_cashReceived req) 0)
                           (toNumber (r_goldRate req) 0) (toNumber (r_silverRate req) 0)
                           (balances targetLedger))
                        targetLedger) in
                 (if Nat.eqb previousId ledgerId then ret tt
                  else
                    w2 <- get ;;
                    let remainingOnPrevious :=
                      size (filter (fun kv => v_ledgerId (snd kv) = previousId
                                              /\ fst kv <> id /\ status (snd kv) = Active)
                                   (vouchers w2)) in
                    save env SaveLedger
                      (setLedgers (insert previousId
                         (withHasVouchers (negb (Nat.eqb remainingOnPrevious 0)) previousLedger)))) ;;;
                 let voucher :=
                   buildVoucher req finalVoucherNumber ledgerId pt vt cleanedItems bk
                                (balances targetLedger) adjustment
                                (v_createdAt existingVoucher) in
                 save env SaveLedger (setLedgers (insert ledgerId targetLedger')) ;;;
                 save env SaveVoucher (setVouchers (insert id voucher)) ;;;
                 ret (Resp 200 true "Voucher updated successfully")
             end
         end
     end end end)
    "Server error updating voucher".

(** ** Voucher routes: cancel and delete *)

(** [ledger.hasVouchers = false] when no other active voucher is left. *)
Definition afterRemoval (w : World) (id : nat) (voucher : Voucher) (ledger : Ledger) : Ledger :=
  let remainingVouchers :=
    size (filter (fun kv => v_ledgerId (snd kv) = v_ledgerId voucher
                            /\ fst kv <> id /\ status (snd kv) = Active)
                 (vouchers w)) in
  if Nat.eqb remainingVouchers 0 then withHasVouchers false ledger else ledger.

(** [PATCH /:id] with [status = 'cancelled']. *)
Definition patchVoucher (env : Env) (id : nat) (statusIsCancelled : bool)
  : World -> Response * World :=
  withSession env
    (if negb statusIsCancelled
     then throw (badRequest "Only cancellation is supported via PATCH") else
     w <- get ;;
     match vouchers w !! id with
     | None => ret (Resp 404 false "Voucher not found")
     | Some voucher =>
     match status voucher with
     | Cancelled => ret (Resp 400 false "Voucher already cancelled")
     | Active =>
         let canReverse_ := canReverse env (v_createdAt voucher) in
         voucher' <-
           match ledgers w !! v_ledgerId voucher with
           | Some ledger =>
               if canReverse_ then
                 reversed <- reverseVoucherEffects voucher ledger true true ;;
                 w1 <- get ;;
                 save env SaveLedger
                   (setLedgers (insert (v_ledgerId voucher)
                                       (afterRemoval w1 id voucher (snd reversed)))) ;;;
                 ret (fst reversed)
               else ret voucher
           | None => ret voucher
           end ;;
         save env SaveVoucher (setVouchers (insert id (withStatus Cancelled voucher'))) ;;;
         ret (Resp 200 true (if canReverse_ then "Voucher cancelled successfully"
                        else "Voucher cancelled without reversal"))
     end end)
    "Server error cancelling voucher".

Definition deleteVoucher (env : Env) (id : nat) : World -> Response * World :=
  withSession env
    (w <- get ;;
     match vouchers w !! id with
     | None => ret (Resp 404 false "Voucher not found")
     | Some voucher =>
         let canReverse_ := canReverse env (v_createdAt voucher) in
         (match ledgers w !! v_ledgerId voucher with
          | Some ledger =>
              ledger' <-
                (if canReverse_ && negb (bool_decide (status voucher = Cancelled)) then
                   reversed <- reverseVoucherEffects voucher ledger true false ;;
                   ret (snd reversed)
                 else if canReverse_ && negb (stockRestored voucher) then
                   let adjustment := getVoucherStockAdjustment voucher in
                   (if hasNonZeroStockAdjustment adjustment
                    then applyStockAdjustmentForVoucher adjustment (voucherType voucher) true
                    else ret tt) ;;;
                   ret ledger
                 else ret ledger) ;;
              w1 <- get ;;
              save env SaveLedger
                (setLedgers (insert (v_ledgerId voucher) (afterRemoval w1 id voucher ledger')))
          | None => ret tt
          end) ;;;
         modify (setVouchers (delete id)) ;;;
         ret (Resp 200 true (if canReverse_ then "Voucher deleted successfully"
                        else "Voucher deleted without reversal"))
     end)
    "Server error deleting voucher".

End VoucherRoutes.

(** ** The tenant's API as one step function *)

Inductive Request :=
  | PostLedger (req : LedgerRoutes.LedgerRequest)
  | PatchLedger (id : nat) (req : LedgerRoutes.LedgerRequest)
  | DeleteLedger (id : nat)
  | DeleteLedgerVouchers (id : nat)
  | PostRecalculateBalance (id : nat)
  | PostVoucher (req : VoucherRoutes.VoucherRequest)
  | PutVoucher (id : nat) (req : VoucherRoutes.VoucherRequest)
  | PatchVoucher (id : nat) (statusIsCancelled : bool)
  | DeleteVoucher (id : nat)
  | PostSettlement (req : SettlementRoutes.CreateRequest)
  | DeleteSettlement (id : nat)
  | PostKarigar (req : KarigarRoutes.CreateRequest)
  | DeleteKarigar (id : nat)
  | PostStockAdd (req : StockLedger.AddRequest)
  | PostStockUndo.

Definition handle (env : Env) (r : Request) : World -> Response * World :=
  match r with
  | PostLedger req => LedgerRoutes.postLedger env req
  | PatchLedger id req => LedgerRoutes.patchLedger env id req
  | DeleteLedger id => LedgerRoutes.deleteLedger env id
  | DeleteLedgerVouchers id => LedgerRoutes.deleteLedgerVouchers env id
  | PostRecalculateBalance id => LedgerRoutes.postRecalculateBalance env id
  | PostVoucher req => VoucherRoutes.postVoucher env req
  | PutVoucher id req => VoucherRoutes.putVoucher env id req
  | PatchVoucher id c => VoucherRoutes.patchVoucher env id c
  | DeleteVoucher id => VoucherRoutes.deleteVoucher env id
  | PostSettlement req => SettlementRoutes.postSettlement env req
  | DeleteSettlement id => SettlementRoutes.deleteSettlement env id
  | PostKarigar req => KarigarRoutes.postKarigar env req
  | DeleteKarigar id => KarigarRoutes.deleteKarigar env id
  | PostStockAdd req => StockLedger.postAdd env req
  | PostStockUndo => StockLedger.postUndo env
  end.

(** A history of requests, each with the environment it ran in. *)
Definition run (history : list (Env * Request)) (w : World) : World :=
  fold_left (fun acc step => snd (handle (fst step) (snd step) acc)) history w.

(** ** Vocabulary of the properties *)

(** [inv I m]: running [m] keeps [I], whatever the outcome. *)
Definition inv (I : World -> Prop) {A} (m : M A) : Prop :=
  forall w, I w -> I (snd (m w)).

(** [invR I m R]: moreover a returned value satisfies [R]. *)
Definition invR (I : World -> Prop) {A} (m : M A) (R : A -> Prop) : Prop :=
  forall w, I w -> I (snd (m w)) /\ forall a, fst (m w) = Returned a -> R a.

Definition StockOk (w : World) : Prop :=
  match stock w with
  | Some s => 0 <= gold s /\ 0 <= silver s
  | None => True
  end.

Definition goldOf (w : World) : Q :=
  match stock w with Some s => gold s | None => 0 end.

Definition silverOf (w : World) : Q :=
  match stock w with Some s => silver s | None => 0 end.

(** What one guarded decrement does, for any request magnitudes. *)
Definition deductSpec (g s : Q) (w : World) (res : Outcome Stock * World) : Prop :=
  match res with
  | (Returned st, w') =>
      0 <= g /\ 0 <= s /\ g <= goldOf w /\ s <= silverOf w
      /\ stock w' = Some st
      /\ gold st == goldOf w - g /\ silver st == silverOf w - s
      /\ 0 <= gold st /\ 0 <= silver st
  | (Thrown e, w') =>
      goldOf w' = goldOf w /\ silverOf w' = silverOf w
      /\ (0 <= g -> 0 <= s ->
          e = InsufficientStock /\ (goldOf w < g \/ silverOf w < s))
  end.

(** ** Sample data *)

Definition sampleEnv : Env :=
  mkEnv 1000 (JNumber 48) false (fun _ => false).

Definition sampleUser : User := mkUser Bulk true 1.

Definition sampleLedger : Ledger :=
  mkLedger "Asha" Regular (mkOpening 0 0 0) (mkBalances 0 0 0 0 0) false.

(** One regular ledger with zero balances and five grams of gold in stock. *)
Definition sampleWorld : World :=
  mkWorld {[ 0%nat := sampleLedger ]} ∅ ∅ ∅
          (Some (mkStock 5 0 0)) [] (Some sampleUser) 1.

Definition sampleKarigarGiven : KarigarRoutes.CreateRequest :=
  KarigarRoutes.mkCreateRequest (Valid Given) "Ravi" "chain" (Valid Gold) (JNumber 5) JUndefined.

(** The derived-amount invariant of a balance record. *)
Definition Unified (b : Balances) : Prop :=
  amount b == cashBalance b + creditBalance b.

Definition SnapshotUnified (v : Voucher) : Prop :=
  forall s, previousLedgerState v = Some s -> Unified s.

(** Every ledger, and every snapshot a voucher would restore, is unified. *)
Definition WorldUnified (w : World) : Prop :=
  (forall id l, ledgers w !! id = Some l -> Unified (balances l))
  /\ (forall id v, vouchers w !! id = Some v -> SnapshotUnified v).

Definition sampleLedgerRequest : LedgerRoutes.LedgerRequest :=
  LedgerRoutes.mkLedgerRequest (Some "Asha") Missing
    (Some (LedgerRoutes.mkOpeningRequest (JNumber 100) (JNumber 2) JUndefined))
    None None None.

Definition sampleCreditSale : VoucherRoutes.VoucherRequest :=
  VoucherRoutes.mkVoucherRequest (Some 0%nat) (Valid credit) Normal ""
    JUndefined JUndefined
    (Some [VoucherRoutes.mkRawItem "ring" (Valid Gold) (JNumber 10) (JNumber 10) (JNumber 50000)])
    JUndefined JUndefined "" JUndefined Missing JUndefined Missing.

Definition sampleStockAdd : StockLedger.AddRequest :=
  StockLedger.mkAddRequest (JNumber 20) (JNumber 0) (JNumber 300) JUndefined None.

Definition sampleReceipt : SettlementRoutes.CreateRequest :=
  SettlementRoutes.mkCreateRequest (Some 0%nat) (Valid Gold) (JNumber 10)
    (Valid Receipt) false (JNumber 3) JUndefined.

(** A short life of one tenant: a ledger with an opening balance, a
    karigar handoff refused for lack of stock (which creates the stock
    record), stock bought, the handoff accepted, a credit sale, a metal
    receipt, then the sale cancelled. *)
Definition sampleHistory : list (Env * Request) :=
  [ (sampleEnv, PostLedger sampleLedgerRequest);
    (sampleEnv, PostKarigar sampleKarigarGiven);
    (sampleEnv, PostStockAdd sampleStockAdd);
    (sampleEnv, PostKarigar sampleKarigarGiven);
    (sampleEnv, PostVoucher sampleCreditSale);
    (sampleEnv, PostSettlement sampleReceipt);
    (sampleEnv, PatchVoucher 2 true) ].

Fixpoint responses (history : list (Env * Request)) (w : World) : list Response :=
  match history with
  | [] => []
  | step :: rest =>
      fst (handle (fst step) (snd step) w)
      :: responses rest (snd (handle (fst step) (snd step) w))
  end.

(** [wp m Q E w]: run from [w], [m] either returns a value and a world
    that satisfy [Q], or throws an error in a world that satisfy [E]. *)
Definition wp {A} (m : M A) (Q : A -> World -> Prop) (E : Error -> World -> Prop)
           (w : World) : Prop :=
  match m w with
  | (Returned a, w') => Q a w'
  | (Thrown e, w') => E e w'
  end.

(** The world once the stock record is known to exist. *)
Definition ensured (w : World) : World :=
  match stock w with
  | Some _ => w
  | None => setStock (Some (mkStock 0 0 0)) w
  end.

Definition INVALID_STOCK_deduct : Error :=
  createError 400 "Stock deduction values cannot be negative" "INVALID_STOCK".
Definition INVALID_STOCK_addBack : Error :=
  createError 400 "Stock add-back values cannot be negative" "INVALID_STOCK".

Definition cashOf (w : World) : Q :=
  match stock w with Some s => cashInHand s | None => 0 end.

(** Same counters, up to numeric equality. *)
Definition sameStock (w w' : World) : Prop :=
  goldOf w' == goldOf w /\ silverOf w' == silverOf w /\ cashOf w' == cashOf w.

(** The counter of one metal. *)
Definition metalOf (m : Metal) (w : World) : Q :=
  match m with Gold => goldOf w | Silver => silverOf w end.





(** Scenario 4 of the specification: a ledger owed three grams of gold,
    and a payment settlement of five grams. *)
Definition scenario4World : World :=
  mkWorld {[ 0%nat := mkLedger "Asha" Regular (mkOpening 0 0 0)
                               (mkBalances 3 0 1000 0 1000) true ]}
          ∅ ∅ ∅ (Some (mkStock 50 0 0)) [] (Some sampleUser) 1.


(** [onlyStock w w']: nothing but the stock record differs. *)
Definition onlyStock (w w' : World) : Prop :=
  ledgers w' = ledgers w /\ vouchers w' = vouchers w
  /\ settlements w' = settlements w /\ karigars w' = karigars w
  /\ stockInputs w' = stockInputs w /\ user w' = user w /\ nextId w' = nextId w.

(** The stock adjustment a voucher request leads to. *)
Definition expectedAdjustment (u : User) (pt : PaymentType) (cleaned : list Item) : Q * Q :=
  match stockMode u with
  | ItemMode => (0, 0)
  | Bulk =>
      if VoucherRoutes.usesStockAdjustment pt
      then VoucherRoutes.getFineByMetal cleaned
      else (0, 0)
  end.

(** The outcome of a successful [POST /] on vouchers, spelled out. *)
Definition createdVoucher (env : Env) (req : VoucherRoutes.VoucherRequest)
           (number : string) (ledgerId : nat) (pt : PaymentType) (vt : VoucherType)
           (cleaned : list Item) (bk : VoucherRoutes.Booking) (l : Ledger) (u : User) : Voucher :=
  VoucherRoutes.buildVoucher req number ledgerId pt vt cleaned bk (balances l)
    (expectedAdjustment u pt cleaned) (Some (now env)).

Definition bookedLedger (req : VoucherRoutes.VoucherRequest) (pt : PaymentType)
           (vt : VoucherType) (cleaned : list Item) (bk : VoucherRoutes.Booking)
           (l : Ledger) : Ledger :=
  withHasVouchers true
    (withBalances
       (VoucherRoutes.applyVoucherBalances (VoucherRoutes.r_invoiceType req) (ledgerType l)
          pt vt cleaned (VoucherRoutes.bk_currentAmount bk)
          (toNumber (VoucherRoutes.r_cashReceived req) 0)
          (toNumber (VoucherRoutes.r_goldRate req) 0)
          (toNumber (VoucherRoutes.r_silverRate req) 0) (balances l))
       l).

(** The sign with which a voucher adjustment reaches the stock counters:
    a sale takes metal out, a purchase brings it in, and a reversal does
    the opposite. *)
Definition stockSign (vt : VoucherType) (reverse : bool) : Q :=
  match vt, reverse with
  | Sale, false | Purchase, true => -1
  | Sale, true | Purchase, false => 1
  end.

(** The sample world with plenty of both metals in stock. *)
Definition stockedWorld : World :=
  setStock (Some (mkStock 100 50 0)) sampleWorld.

Definition sampleMoneyToGold : VoucherRoutes.VoucherRequest :=
  VoucherRoutes.mkVoucherRequest (Some 0%nat) (Valid money_to_gold) Normal ""
    (JNumber 6000) JUndefined None
    JUndefined JUndefined "" (JNumber 12000) Missing JUndefined Missing.

Definition sampleGstSale : VoucherRoutes.VoucherRequest :=
  VoucherRoutes.mkVoucherRequest (Some 0%nat) (Valid cash) GstInvoice "INV-1"
    JUndefined JUndefined
    (Some [VoucherRoutes.mkRawItem "coin" (Valid Silver) (JNumber 10) (JNumber 10) (JNumber 900)])
    JUndefined JUndefined "" (JNumber 927) (Valid VoucherRoutes.IGST) (JNumber 3) Missing.

(** What a voucher adjustment [adj] does to the three stock counters
    between [w] and [w']. *)
Definition stockMoved (vt : VoucherType) (reverse : bool) (adj : Q * Q)
           (w w' : World) : Prop :=
  goldOf w' == goldOf w + stockSign vt reverse * fst adj
  /\ silverOf w' == silverOf w + stockSign vt reverse * snd adj
  /\ cashOf w' == cashOf w.

(** Whether [reverseVoucherEffects] with [restoreStock] set gives the
    voucher's metal back to the stock. *)
Definition restoresStock (v : Voucher) : bool :=
  negb (stockRestored v)
  && VoucherRoutes.hasNonZeroStockAdjustment (VoucherRoutes.getVoucherStockAdjustment v).

(** A credit sale of ten grams of gold booked at time 1000 on the sample
    ledger when all its balances were zero. *)
Definition sampleVoucher : Voucher :=
  mkVoucher "1" 0 Normal "" credit 0 0 [mkItem "ring" Gold 10 10 50000]
            0 50000 0 0 0 50000 0 Active Sale
            (Some (mkBalances 0 0 0 0 0)) true (Some 10, Some 0) false (Some 1000%Z).

(** The world after that sale and a later cash movement on the ledger. *)
Definition soldWorld : World :=
  mkWorld {[ 0%nat := mkLedger "Asha" Regular (mkOpening 0 0 0)
                               (mkBalances 10 0 49000 49000 0) true ]}
          {[ 1%nat := sampleVoucher ]} ∅ ∅
          (Some (mkStock 90 50 0)) [] (Some sampleUser) 2.

(** The sample environment three days later, past the 48 hour window. *)
Definition lateEnv : Env :=
  mkEnv (1000 + 72 * 3600 * 1000) (JNumber 48) false (fun _ => false).

(** * Properties *)

(** ** Numeric facts *)

Lemma Qltb_lt a b : Qltb a b = true <-> a < b.
Proof.
  unfold Qltb. rewrite negb_true_iff.
  split; intros H.
  - destruct (Qlt_le_dec a b) as [Hlt|Hle]; [exact Hlt|].
    apply Qle_bool_iff in Hle. congruence.
  - destruct (Qle_bool b a) eqn:E; [|reflexivity].
    apply Qle_bool_iff in E. lra.
Qed.

Lemma Qltb_ge a b : Qltb a b = false <-> b <= a.
Proof.
  unfold Qltb. rewrite negb_false_iff. apply Qle_bool_iff.
Qed.

Lemma Qmax0_nonneg a : 0 <= Qmax0 a.
Proof.
  unfold Qmax0. destruct (Qle_bool 0 a) eqn:E.
  - now apply Qle_bool_iff.
  - lra.
Qed.

(** ** Reasoning about handlers *)

Section HandlerLogic.

Variable I : World -> Prop.

Lemma inv_ret {A} (a : A) : inv I (ret a).
Proof. intros w Hw. exact Hw. Qed.

Lemma inv_throw {A} (e : Error) : inv I (@throw A e).
Proof. intros w Hw. exact Hw. Qed.

Lemma inv_get : inv I get.
Proof. intros w Hw. exact Hw. Qed.

Lemma inv_modify (f : World -> World) :
  (forall w, I w -> I (f w)) -> inv I (modify f).
Proof. intros Hf w Hw. apply Hf, Hw. Qed.

Lemma inv_save env p (f : World -> World) :
  (forall w, I w -> I (f w)) -> inv I (save env p f).
Proof.
  intros Hf. unfold save. destruct (saveFails env p).
  - apply inv_throw.
  - apply inv_modify, Hf.
Qed.

Lemma inv_bindR {A B} (m : M A) (k : A -> M B) (R : A -> Prop) :
  invR I m R -> (forall a, R a -> inv I (k a)) -> inv I (bind m k).
Proof.
  intros Hm Hk w Hw. unfold bind.
  destruct (Hm w Hw) as [Hi Hr].
  destruct (m w) as [[a|e] w']; simpl in *.
  - apply (Hk a); auto.
  - exact Hi.
Qed.

Lemma inv_bind {A B} (m : M A) (k : A -> M B) :
  inv I m -> (forall a, inv I (k a)) -> inv I (bind m k).
Proof.
  intros Hm Hk. apply inv_bindR with (R := fun _ => True).
  - intros w Hw. split; [apply Hm, Hw | trivial].
  - intros a _. apply Hk.
Qed.

Lemma inv_get_bind {B} (k : World -> M B) :
  (forall w0, I w0 -> inv I (k w0)) -> inv I (bind get k).
Proof. intros Hk w Hw. unfold bind, get. apply (Hk w Hw w Hw). Qed.

Lemma inv_tryCatch {A} (body : M A) (handler : Error -> M A) :
  inv I body -> (forall e, inv I (handler e)) -> inv I (tryCatch body handler).
Proof.
  intros Hb Hh w Hw. unfold tryCatch.
  specialize (Hb w Hw).
  destruct (body w) as [[a|e] w']; simpl in *.
  - exact Hb.
  - apply Hh, Hb.
Qed.

Lemma inv_respond (body : M Response) dflt w :
  inv I body -> I w -> I (snd (respond body dflt w)).
Proof.
  intros Hb Hw. unfold respond. specialize (Hb w Hw).
  destruct (body w) as [[r|e] w']; exact Hb.
Qed.

Lemma inv_withSession env (body : M Response) dflt w :
  inv I body -> I w -> I (snd (withSession env body dflt w)).
Proof.
  intros Hb Hw. unfold withSession. specialize (Hb w Hw).
  destruct (body w) as [[r|e] w']; simpl in *;
    destruct (supportsTransactions env); simpl; auto.
  destruct (isSuccess r); auto.
Qed.

Lemma invR_of_inv {A} (m : M A) : inv I m -> invR I m (fun _ => True).
Proof. intros Hm w Hw. split; [apply Hm, Hw | trivial]. Qed.

End HandlerLogic.

(** Structural step on a goal [inv I m]. *)
Ltac inv_step :=
  lazymatch goal with
  | |- inv _ (ret _) => apply inv_ret
  | |- inv _ (throw _) => apply inv_throw
  | |- inv _ (bind get _) => apply inv_get_bind; intros ? ?
  | |- inv _ (tryCatch _ _) => apply inv_tryCatch; [|intros ?]
  | |- inv _ (if ?c then _ else _) => destruct c eqn:?
  | |- inv _ (match ?x with _ => _ end) => destruct x eqn:?
  | |- inv _ (let _ := _ in _) => cbv zeta
  | |- inv _ (bind _ _) => apply inv_bind; [|intros ?]
  end.

(** ** Stock never goes negative *)

Section StockInvariant.

Lemma StockOk_frame (f : World -> World) :
  (forall w, stock (f w) = stock w) -> forall w, StockOk w -> StockOk (f w).
Proof. intros Hf w. unfold StockOk. now rewrite Hf. Qed.

Lemma ensureUserStock_ok : inv StockOk StockLedger.ensureUserStock.
Proof.
  intros w Hw. unfold StockLedger.ensureUserStock, bind, get, modify, ret.
  destruct (stock w) eqn:Hst; simpl; [exact Hw | unfold StockOk; simpl; split; lra].
Qed.

Lemma deductFromStock_ok g s : inv StockOk (deductFromStock g s).
Proof.
  unfold StockLedger.deductFromStock, StockLedger.toNumber.
  apply inv_bind; [apply inv_ret|intros g'].
  apply inv_bind; [apply inv_ret|intros s'].
  destruct (_ || _) eqn:Hneg; [apply inv_throw|].
  apply inv_bind; [apply ensureUserStock_ok|intros _].
  apply inv_get_bind. intros w0 Hw0.
  destruct (stock w0) as [st|] eqn:Hst; [|apply inv_throw].
  destruct (_ && _) eqn:Hguard; [|apply inv_throw].
  apply andb_true_iff in Hguard. destruct Hguard as [Hg Hs].
  apply Qle_bool_iff in Hg, Hs.
  apply inv_bind; [|intros; apply inv_ret].
  apply inv_modify. intros w _. unfold StockOk. simpl. split; lra.
Qed.

Lemma addBackToStock_ok g s : inv StockOk (addBackToStock g s).
Proof.
  unfold StockLedger.addBackToStock, StockLedger.toNumber.
  apply inv_bind; [apply inv_ret|intros g'].
  apply inv_bind; [apply inv_ret|intros s'].
  destruct (_ || _) eqn:Hneg; [apply inv_throw|].
  apply orb_false_iff in Hneg. destruct Hneg as [Hg Hs].
  apply Qltb_ge in Hg, Hs.
  apply inv_bind; [apply ensureUserStock_ok|intros _].
  apply inv_get_bind. intros w0 Hw0.
  destruct (stock w0) as [st|] eqn:Hst; [|apply inv_ret].
  unfold StockOk in Hw0. rewrite Hst in Hw0.
  apply inv_bind; [|intros; apply inv_ret].
  apply inv_modify. intros w _. unfold StockOk. simpl. split; lra.
Qed.

End StockInvariant.

Lemma freshId_inv (I : World -> Prop) :
  (forall w, I w -> I (bumpId w)) -> inv I freshId.
Proof. intros H w Hw. apply H, Hw. Qed.

Lemma cleanItems_inv (I : World -> Prop) raw : forall index,
  inv I (VoucherRoutes.cleanItems index raw).
Proof.
  induction raw as [|item rest IH]; intros index; simpl.
  - apply inv_ret.
  - destruct (VoucherRoutes.ri_metalType item); try apply inv_throw.
    destruct (String.eqb _ _); [apply inv_throw|].
    apply inv_bind; [apply IH|intros; apply inv_ret].
Qed.

Ltac stock_leaf :=
  first
    [ apply deductFromStock_ok
    | apply addBackToStock_ok
    | apply ensureUserStock_ok
    | apply cleanItems_inv
    | apply inv_get
    | apply freshId_inv; apply StockOk_frame; reflexivity
    | apply inv_save; apply StockOk_frame; reflexivity
    | apply inv_modify; apply StockOk_frame; reflexivity ].

Ltac stock_inv := repeat first [ stock_leaf | inv_step ].

Section StockInvariantHandlers.
Variable env : Env.

Lemma applyStockAdjustmentForVoucher_ok adj vt rev :
  inv StockOk (VoucherRoutes.applyStockAdjustmentForVoucher adj vt rev).
Proof. unfold VoucherRoutes.applyStockAdjustmentForVoucher. stock_inv. Qed.

Lemma reverseVoucherEffects_ok v l rs mr :
  inv StockOk (VoucherRoutes.reverseVoucherEffects v l rs mr).
Proof.
  unfold VoucherRoutes.reverseVoucherEffects.
  repeat first [ apply applyStockAdjustmentForVoucher_ok | stock_leaf | inv_step ].
Qed.

Lemma bookStock_ok u pt vt its :
  inv StockOk (VoucherRoutes.bookStock u pt vt its).
Proof.
  unfold VoucherRoutes.bookStock.
  repeat first [ apply applyStockAdjustmentForVoucher_ok | stock_leaf | inv_step ].
Qed.

Lemma postAdd_ok req w : StockOk w -> StockOk (snd (StockLedger.postAdd env req w)).
Proof.
  unfold StockLedger.postAdd. apply inv_withSession.
  unfold StockLedger.toNumber.
  apply inv_bind; [stock_inv|intros g].
  apply inv_bind; [stock_inv|intros s].
  apply inv_bind; [stock_inv|intros c].
  cbv zeta. destruct (_ || _) eqn:Hneg; [apply inv_throw|].
  apply orb_false_iff in Hneg. destruct Hneg as [Hneg _].
  apply orb_false_iff in Hneg. destruct Hneg as [Hg Hs].
  apply Qltb_ge in Hg, Hs.
  apply inv_get_bind. intros w0 Hw0.
  apply inv_bind; [|intros; stock_inv].
  destruct (stock w0) as [st|] eqn:Hst; [|apply inv_ret].
  unfold StockOk in Hw0. rewrite Hst in Hw0.
  apply inv_modify. intros w1 _. unfold StockOk. simpl. split; lra.
Qed.

Lemma postUndo_ok w : StockOk w -> StockOk (snd (StockLedger.postUndo env w)).
Proof.
  unfold StockLedger.postUndo. apply inv_withSession.
  apply inv_get_bind. intros w0 Hw0.
  destruct (StockLedger.findLastInput _) as [[idx lastInput]|]; [|apply inv_throw].
  apply inv_bind; [apply ensureUserStock_ok|intros st].
  cbv zeta. destruct (_ || _) eqn:Hneg; [apply inv_throw|].
  apply orb_false_iff in Hneg. destruct Hneg as [Hg Hs].
  apply Qltb_ge in Hg, Hs. unfold StockLedger.MIN_ALLOWED in *.
  apply inv_bind; [|intros; stock_inv].
  apply inv_save. intros w1 _. unfold StockOk. simpl. split; assumption.
Qed.

Lemma postKarigar_ok req w :
  StockOk w -> StockOk (snd (KarigarRoutes.postKarigar env req w)).
Proof.
  intros Hw. unfold KarigarRoutes.postKarigar. apply inv_respond; [|exact Hw]. stock_inv.
Qed.

Lemma deleteKarigar_ok id w :
  StockOk w -> StockOk (snd (KarigarRoutes.deleteKarigar env id w)).
Proof.
  intros Hw. unfold KarigarRoutes.deleteKarigar. apply inv_respond; [|exact Hw]. stock_inv.
Qed.

Lemma postSettlement_ok req w :
  StockOk w -> StockOk (snd (SettlementRoutes.postSettlement env req w)).
Proof.
  intros Hw. unfold SettlementRoutes.postSettlement. apply inv_respond; [|exact Hw].
  unfold SettlementRoutes.adjustStock, SettlementRoutes.finishCreate,
    SettlementRoutes.inverseStockCall.
  stock_inv.
Qed.

Lemma deleteSettlement_ok id w :
  StockOk w -> StockOk (snd (SettlementRoutes.deleteSettlement env id w)).
Proof.
  intros Hw. unfold SettlementRoutes.deleteSettlement. apply inv_respond; [|exact Hw]. stock_inv.
Qed.

Lemma postLedger_ok req w :
  StockOk w -> StockOk (snd (LedgerRoutes.postLedger env req w)).
Proof.
  intros Hw. unfold LedgerRoutes.postLedger. apply inv_respond; [|exact Hw].
  unfold LedgerRoutes.parseOpening. stock_inv.
Qed.

Lemma patchLedger_ok id req w :
  StockOk w -> StockOk (snd (LedgerRoutes.patchLedger env id req w)).
Proof.
  intros Hw. unfold LedgerRoutes.patchLedger. apply inv_respond; [|exact Hw].
  unfold LedgerRoutes.parseOpening. stock_inv.
Qed.

Lemma deleteLedger_ok id w :
  StockOk w -> StockOk (snd (LedgerRoutes.deleteLedger env id w)).
Proof.
  intros Hw. unfold LedgerRoutes.deleteLedger. apply inv_respond; [|exact Hw]. stock_inv.
Qed.

Lemma deleteLedgerVouchers_ok id w :
  StockOk w -> StockOk (snd (LedgerRoutes.deleteLedgerVouchers env id w)).
Proof.
  intros Hw. unfold LedgerRoutes.deleteLedgerVouchers. apply inv_respond; [|exact Hw]. stock_inv.
Qed.

Lemma postRecalculateBalance_ok id w :
  StockOk w -> StockOk (snd (LedgerRoutes.postRecalculateBalance env id w)).
Proof.
  intros Hw. unfold LedgerRoutes.postRecalculateBalance. apply inv_respond; [|exact Hw].
  stock_inv.
Qed.

Lemma postVoucher_ok req w :
  StockOk w -> StockOk (snd (VoucherRoutes.postVoucher env req w)).
Proof.
  intros Hw. unfold VoucherRoutes.postVoucher. apply inv_withSession; [|exact Hw].
  unfold VoucherRoutes.validateCreate, VoucherRoutes.book.
  repeat first [ apply bookStock_ok | stock_leaf | inv_step ].
Qed.

Lemma putVoucher_ok id req w :
  StockOk w -> StockOk (snd (VoucherRoutes.putVoucher env id req w)).
Proof.
  intros Hw. unfold VoucherRoutes.putVoucher. apply inv_withSession; [|exact Hw].
  unfold VoucherRoutes.validateEdit, VoucherRoutes.book.
  repeat first [ apply bookStock_ok | apply reverseVoucherEffects_ok | stock_leaf | inv_step ].
Qed.

Lemma patchVoucher_ok id c w :
  StockOk w -> StockOk (snd (VoucherRoutes.patchVoucher env id c w)).
Proof.
  intros Hw. unfold VoucherRoutes.patchVoucher. apply inv_withSession; [|exact Hw].
  repeat first [ apply reverseVoucherEffects_ok | stock_leaf | inv_step ].
Qed.

Lemma deleteVoucher_ok id w :
  StockOk w -> StockOk (snd (VoucherRoutes.deleteVoucher env id w)).
Proof.
  intros Hw. unfold VoucherRoutes.deleteVoucher. apply inv_withSession; [|exact Hw].
  repeat first [ apply reverseVoucherEffects_ok | apply applyStockAdjustmentForVoucher_ok
               | stock_leaf | inv_step ].
Qed.

Lemma handle_StockOk r w : StockOk w -> StockOk (snd (handle env r w)).
Proof.
  intros Hw. destruct r; simpl.
  - now apply postLedger_ok.
  - now apply patchLedger_ok.
  - now apply deleteLedger_ok.
  - now apply deleteLedgerVouchers_ok.
  - now apply postRecalculateBalance_ok.
  - now apply postVoucher_ok.
  - now apply putVoucher_ok.
  - now apply patchVoucher_ok.
  - now apply deleteVoucher_ok.
  - now apply postSettlement_ok.
  - now apply deleteSettlement_ok.
  - now apply postKarigar_ok.
  - now apply deleteKarigar_ok.
  - now apply postAdd_ok.
  - now apply postUndo_ok.
Qed.

End StockInvariantHandlers.

Lemma run_StockOk history : forall w, StockOk w -> StockOk (run history w).
Proof.
  unfold run. induction history as [|[env r] rest IH]; intros w Hw; simpl.
  - exact Hw.
  - apply IH, handle_StockOk, Hw.
Qed.

Lemma deductFromStock_spec g s w : deductSpec g s w (deductFromStock g s w).
Proof.
  unfold deductSpec, StockLedger.deductFromStock, StockLedger.toNumber,
    StockLedger.ensureUserStock, bind, ret, get, modify, throw, goldOf, silverOf.
  destruct (Qltb g 0) eqn:Hg; simpl.
  { apply Qltb_lt in Hg. split; [reflexivity|]. split; [reflexivity|]. intros; lra. }
  destruct (Qltb s 0) eqn:Hs; simpl.
  { apply Qltb_lt in Hs. split; [reflexivity|]. split; [reflexivity|]. intros; lra. }
  apply Qltb_ge in Hg, Hs.
  assert (Hcase : forall a b x y : Q,
             Qle_bool a x && Qle_bool b y = false -> x < a \/ y < b).
  { intros a b x y H. apply andb_false_iff in H. destruct H as [H|H].
    - left. destruct (Qlt_le_dec x a) as [Hlt|Hle]; [exact Hlt|].
      apply Qle_bool_iff in Hle. congruence.
    - right. destruct (Qlt_le_dec y b) as [Hlt|Hle]; [exact Hlt|].
      apply Qle_bool_iff in Hle. congruence. }
  destruct (stock w) as [st|] eqn:Hst; simpl; rewrite ?Hst; simpl.
  - destruct (Qle_bool g (gold st) && Qle_bool s (silver st)) eqn:Hguard; simpl.
    + apply andb_true_iff in Hguard. destruct Hguard as [Hgg Hss].
      apply Qle_bool_iff in Hgg, Hss.
      repeat split; try assumption; try lra.
    + rewrite Hst. split; [reflexivity|]. split; [reflexivity|].
      intros _ _. split; [reflexivity|]. apply Hcase, Hguard.
  - destruct (Qle_bool g 0 && Qle_bool s 0) eqn:Hguard; simpl.
    + apply andb_true_iff in Hguard. destruct Hguard as [Hgg Hss].
      apply Qle_bool_iff in Hgg, Hss.
      repeat split; try assumption; try lra.
    + split; [reflexivity|]. split; [reflexivity|].
      intros _ _. split; [reflexivity|]. apply Hcase, Hguard.
Qed.

(** C2. A stock record that starts with gold >= 0 and silver >= 0 keeps
    both after every request of the API (stock add, stock-input undo, and
    the stock adjustments of voucher, settlement and karigar requests all
    go through the guarded primitives); and the guarded decrement, for
    non-negative magnitudes, either decrements both counters, which then
    are still >= 0, or throws InsufficientStock and leaves both counters
    as they were. *)
Theorem stock_never_negative (env : Env) (r : Request) (w : World) (g s : Q) :
  StockOk w ->
  StockOk (snd (handle env r w))
  /\ StockOk (snd (deductFromStock g s w))
  /\ StockOk (snd (addBackToStock g s w))
  /\ deductSpec g s w (deductFromStock g s w).
Proof.
  intros Hw. repeat split.
  - apply handle_StockOk, Hw.
  - apply deductFromStock_ok, Hw.
  - apply addBackToStock_ok, Hw.
  - apply deductFromStock_spec.
Qed.

Lemma stock_never_negative_witness :
  StockOk sampleWorld
  /\ StockOk (snd (handle sampleEnv (PostKarigar sampleKarigarGiven) sampleWorld))
  /\ StockOk (snd (deductFromStock 5 0 sampleWorld))
  /\ StockOk (snd (addBackToStock 5 0 sampleWorld))
  /\ deductSpec 5 0 sampleWorld (deductFromStock 5 0 sampleWorld).
Proof.
  assert (H : StockOk sampleWorld) by (unfold StockOk; simpl; split; lra).
  split; [exact H|].
  apply (stock_never_negative sampleEnv (PostKarigar sampleKarigarGiven) sampleWorld 5 0 H).
Defined.

(** Scenario 2 of the specification: with five grams in stock, deducting
    five succeeds and leaves zero; deducting one more is refused and the
    counter stays at zero. *)
Example deduct_scenario :
  let w1 := snd (deductFromStock 5 0 sampleWorld) in
  goldOf w1 == 0
  /\ fst (deductFromStock 1 0 w1) = Thrown InsufficientStock
  /\ goldOf (snd (deductFromStock 1 0 w1)) = goldOf w1.
Proof. vm_compute. repeat split; reflexivity. Qed.

(** ** More rules of the handler logic *)

Section HandlerLogicR.
Variable I : World -> Prop.

Lemma invR_ret {A} (a : A) (R : A -> Prop) : R a -> invR I (ret a) R.
Proof. intros Ha w Hw. split; [exact Hw|]. intros b Hb. now inversion Hb; subst. Qed.

Lemma invR_throw {A} (e : Error) (R : A -> Prop) : invR I (throw e) R.
Proof. intros w Hw. split; [exact Hw|]. intros b Hb. discriminate. Qed.

Lemma invR_bind {A B} (m : M A) (k : A -> M B) (R : A -> Prop) (R' : B -> Prop) :
  invR I m R -> (forall a, R a -> invR I (k a) R') -> invR I (bind m k) R'.
Proof.
  intros Hm Hk w Hw. unfold bind.
  destruct (Hm w Hw) as [Hi Hr].
  destruct (m w) as [[a|e] w']; simpl in *.
  - apply (Hk a); auto.
  - split; [exact Hi|]. intros b Hb. discriminate.
Qed.

Lemma invR_get_bind {B} (k : World -> M B) (R' : B -> Prop) :
  (forall w0, I w0 -> invR I (k w0) R') -> invR I (bind get k) R'.
Proof. intros Hk w Hw. unfold bind, get. apply (Hk w Hw w Hw). Qed.

End HandlerLogicR.

(** ** The derived amount stays in sync *)

Section UnifiedInvariant.

Lemma Unified_unify b : Unified (unify b).
Proof. unfold Unified, unify, calculateUnifiedAmount. simpl. lra. Qed.

Lemma Unified_reset : Unified resetBalances.
Proof. unfold Unified. simpl. lra. Qed.

Lemma Unified_opening a g s : Unified (mkBalances g s a a 0).
Proof. unfold Unified. simpl. lra. Qed.

Lemma Unified_snapshotOf b : Unified b -> Unified (VoucherRoutes.snapshotOf b).
Proof. destruct b. exact (fun H => H). Qed.

Lemma WU_frame (f : World -> World) :
  (forall w, ledgers (f w) = ledgers w) ->
  (forall w, vouchers (f w) = vouchers w) ->
  forall w, WorldUnified w -> WorldUnified (f w).
Proof. intros Hl Hv w [H1 H2]. split; intros ? ?; rewrite ?Hl, ?Hv; eauto. Qed.

Lemma WU_insert_ledger id l w :
  Unified (balances l) -> WorldUnified w -> WorldUnified (setLedgers (insert id l) w).
Proof.
  intros Hl [H1 H2]. split; simpl; [|exact H2].
  intros id' l' Hlook. destruct (decide (id = id')) as [->|Hne].
  - rewrite lookup_insert_eq in Hlook. now inversion Hlook; subst.
  - rewrite lookup_insert_ne in Hlook by exact Hne. eauto.
Qed.

Lemma WU_delete_ledger id w :
  WorldUnified w -> WorldUnified (setLedgers (delete id) w).
Proof.
  intros [H1 H2]. split; simpl; [|exact H2].
  intros id' l' Hlook. apply lookup_delete_Some in Hlook. destruct Hlook; eauto.
Qed.

Lemma WU_insert_voucher id v w :
  SnapshotUnified v -> WorldUnified w -> WorldUnified (setVouchers (insert id v) w).
Proof.
  intros Hv [H1 H2]. split; simpl; [exact H1|].
  intros id' v' Hlook. destruct (decide (id = id')) as [->|Hne].
  - rewrite lookup_insert_eq in Hlook. now inversion Hlook; subst.
  - rewrite lookup_insert_ne in Hlook by exact Hne. eauto.
Qed.

Lemma WU_delete_voucher id w :
  WorldUnified w -> WorldUnified (setVouchers (delete id) w).
Proof.
  intros [H1 H2]. split; simpl; [exact H1|].
  intros id' v' Hlook. apply lookup_delete_Some in Hlook. destruct Hlook; eauto.
Qed.

Lemma WU_filter_vouchers (P : nat * Voucher -> Prop) `{forall x, Decision (P x)} w :
  WorldUnified w -> WorldUnified (setVouchers (filter P) w).
Proof.
  intros [H1 H2]. split; simpl; [exact H1|].
  intros id' v' Hlook. apply map_lookup_filter_Some in Hlook. destruct Hlook; eauto.
Qed.

Lemma SnapshotUnified_fixTotal v :
  SnapshotUnified v -> SnapshotUnified (LedgerRoutes.fixTotal v).
Proof.
  unfold LedgerRoutes.fixTotal. destruct (isZero (total v)); [|exact (fun H => H)].
  exact (fun H => H).
Qed.

Lemma WU_fix_totals id w0 w :
  WorldUnified w0 -> WorldUnified w ->
  WorldUnified
    (setVouchers (fun m => (LedgerRoutes.fixTotal <$> activeVouchersOfLedger id w0) ∪ m) w).
Proof.
  intros [_ H0] [H1 H2]. split; simpl; [exact H1|].
  intros id' v' Hlook. apply lookup_union_Some_raw in Hlook.
  destruct Hlook as [Hl|[_ Hr]]; [|eauto].
  rewrite lookup_fmap in Hl.
  destruct (activeVouchersOfLedger id w0 !! id') as [v0|] eqn:E; simpl in Hl; [|discriminate].
  inversion Hl; subst. apply SnapshotUnified_fixTotal.
  unfold activeVouchersOfLedger in E. apply map_lookup_filter_Some in E.
  destruct E; eauto.
Qed.

End UnifiedInvariant.

Lemma Unified_applyVoucherBalances it lt pt vt its cur cr gr sr b :
  Unified b ->
  Unified (VoucherRoutes.applyVoucherBalances it lt pt vt its cur cr gr sr b).
Proof.
  intros Hb. unfold VoucherRoutes.applyVoucherBalances.
  destruct it, lt; try exact Hb; apply Unified_unify.
Qed.

Lemma Unified_legacyReverse v l :
  Unified (balances l) -> Unified (VoucherRoutes.legacyReverse v l).
Proof.
  intros Hb. unfold VoucherRoutes.legacyReverse.
  destruct (v_invoiceType v), (ledgerType l); try exact Hb;
    destruct (paymentType v); apply Unified_unify.
Qed.

Lemma Unified_reversedBalances v l :
  SnapshotUnified v -> Unified (balances l) ->
  Unified (VoucherRoutes.reversedBalances v l).
Proof.
  intros Hv Hb. unfold VoucherRoutes.reversedBalances.
  destruct (previousLedgerState v) as [s|] eqn:E.
  - specialize (Hv s E). destruct s. exact Hv.
  - now apply Unified_legacyReverse.
Qed.

Ltac unified :=
  simpl;
  lazymatch goal with
  | |- Unified (unify _) => apply Unified_unify
  | |- Unified resetBalances => apply Unified_reset
  | |- Unified (mkBalances _ _ ?a ?a 0) => apply Unified_opening
  | |- Unified (VoucherRoutes.applyVoucherBalances _ _ _ _ _ _ _ _ _ _) =>
      apply Unified_applyVoucherBalances; unified
  | |- Unified (VoucherRoutes.reversedBalances _ _) =>
      apply Unified_reversedBalances; [snapshot_unified|unified]
  | |- Unified (VoucherRoutes.snapshotOf _) => apply Unified_snapshotOf; unified
  | |- Unified (match ?x with _ => _ end) => destruct x; unified
  | |- Unified (balances ?l) =>
      first
        [ assumption
        | match goal with
          | H : WorldUnified ?w, E : ledgers ?w !! _ = Some l |- _ => exact (proj1 H _ _ E)
          end ]
  | |- _ => assumption
  end
with snapshot_unified :=
  first
    [ assumption
    | match goal with
      | H : WorldUnified ?w, E : vouchers ?w !! _ = Some ?v |- SnapshotUnified ?v =>
          exact (proj2 H _ _ E)
      end
    | intros ? HS; simpl in HS; inversion HS; subst; unified ].

Ltac wu_world :=
  lazymatch goal with
  | |- forall w, WorldUnified w -> WorldUnified (setLedgers (insert _ _) w) =>
      intros ? ?; apply WU_insert_ledger; [unified|assumption]
  | |- forall w, WorldUnified w -> WorldUnified (setLedgers (delete _) w) =>
      intros ? ?; apply WU_delete_ledger; assumption
  | |- forall w, WorldUnified w -> WorldUnified (setVouchers (insert _ _) w) =>
      intros ? ?; apply WU_insert_voucher; [snapshot_unified|assumption]
  | |- forall w, WorldUnified w -> WorldUnified (setVouchers (delete _) w) =>
      intros ? ?; apply WU_delete_voucher; assumption
  | |- forall w, WorldUnified w -> WorldUnified (setVouchers (filter _) w) =>
      intros ? ?; apply WU_filter_vouchers; assumption
  | |- forall w, WorldUnified w -> WorldUnified (setVouchers (fun m => _ ∪ m) w) =>
      intros ? ?; apply WU_fix_totals; assumption
  | |- forall w, WorldUnified w -> WorldUnified (_ w) =>
      apply WU_frame; reflexivity
  end.

Ltac wu_leaf :=
  lazymatch goal with
  | |- inv _ (VoucherRoutes.cleanItems _ _) => apply cleanItems_inv
  | |- inv _ get => apply inv_get
  | |- inv _ freshId => apply freshId_inv; wu_world
  | |- inv _ (save _ _ _) => apply inv_save; wu_world
  | |- inv _ (modify _) => apply inv_modify; wu_world
  end.

Ltac wu_inv := repeat first [ wu_leaf | inv_step ].

Section UnifiedHandlers.
Variable env : Env.

Lemma ensureUserStock_wu : inv WorldUnified StockLedger.ensureUserStock.
Proof. unfold StockLedger.ensureUserStock. wu_inv. Qed.

Lemma deductFromStock_wu g s : inv WorldUnified (deductFromStock g s).
Proof.
  unfold StockLedger.deductFromStock, StockLedger.toNumber.
  repeat first [ apply ensureUserStock_wu | wu_leaf | inv_step ].
Qed.

Lemma addBackToStock_wu g s : inv WorldUnified (addBackToStock g s).
Proof.
  unfold StockLedger.addBackToStock, StockLedger.toNumber.
  repeat first [ apply ensureUserStock_wu | wu_leaf | inv_step ].
Qed.

Lemma applyStockAdjustmentForVoucher_wu adj vt rev :
  inv WorldUnified (VoucherRoutes.applyStockAdjustmentForVoucher adj vt rev).
Proof.
  unfold VoucherRoutes.applyStockAdjustmentForVoucher.
  repeat first [ apply deductFromStock_wu | apply addBackToStock_wu | wu_leaf | inv_step ].
Qed.

Lemma bookStock_wu u pt vt its :
  inv WorldUnified (VoucherRoutes.bookStock u pt vt its).
Proof.
  unfold VoucherRoutes.bookStock.
  repeat first [ apply applyStockAdjustmentForVoucher_wu | wu_leaf | inv_step ].
Qed.

(** Reversal hands back a unified ledger and leaves the snapshot as it was. *)
Lemma reverseVoucherEffects_wu v l rs mr :
  SnapshotUnified v -> Unified (balances l) ->
  invR WorldUnified (VoucherRoutes.reverseVoucherEffects v l rs mr)
       (fun vl => SnapshotUnified (fst vl) /\ Unified (balances (snd vl))).
Proof.
  intros Hv Hl w Hw. unfold VoucherRoutes.reverseVoucherEffects.
  set (adj := VoucherRoutes.getVoucherStockAdjustment v).
  destruct (rs && negb (stockRestored v) && VoucherRoutes.hasNonZeroStockAdjustment adj).
  - pose proof (applyStockAdjustmentForVoucher_wu adj (voucherType v) true w Hw) as Ha.
    unfold bind, ret.
    destruct (VoucherRoutes.applyStockAdjustmentForVoucher adj (voucherType v) true w)
      as [[[]|e] w']; simpl in *.
    + split; [exact Ha|]. intros a Ea. inversion Ea; subst; simpl.
      split; [|now apply Unified_reversedBalances].
      destruct mr; exact Hv.
    + split; [exact Ha|]. intros a Ea. discriminate.
  - unfold bind, ret. simpl. split; [exact Hw|].
    intros a Ea. inversion Ea; subst; simpl.
    split; [exact Hv|now apply Unified_reversedBalances].
Qed.

Lemma postLedger_wu req w :
  WorldUnified w -> WorldUnified (snd (LedgerRoutes.postLedger env req w)).
Proof.
  intros Hw. unfold LedgerRoutes.postLedger. apply inv_respond; [|exact Hw].
  unfold LedgerRoutes.parseOpening. wu_inv.
Qed.

Lemma patchLedger_wu id req w :
  WorldUnified w -> WorldUnified (snd (LedgerRoutes.patchLedger env id req w)).
Proof.
  intros Hw. unfold LedgerRoutes.patchLedger. apply inv_respond; [|exact Hw].
  unfold LedgerRoutes.parseOpening. wu_inv.
Qed.

Lemma deleteLedger_wu id w :
  WorldUnified w -> WorldUnified (snd (LedgerRoutes.deleteLedger env id w)).
Proof.
  intros Hw. unfold LedgerRoutes.deleteLedger. apply inv_respond; [|exact Hw]. wu_inv.
Qed.

Lemma deleteLedgerVouchers_wu id w :
  WorldUnified w -> WorldUnified (snd (LedgerRoutes.deleteLedgerVouchers env id w)).
Proof.
  intros Hw. unfold LedgerRoutes.deleteLedgerVouchers. apply inv_respond; [|exact Hw]. wu_inv.
Qed.

Lemma postRecalculateBalance_wu id w :
  WorldUnified w -> WorldUnified (snd (LedgerRoutes.postRecalculateBalance env id w)).
Proof.
  intros Hw. unfold LedgerRoutes.postRecalculateBalance. apply inv_respond; [|exact Hw].
  wu_inv.
Qed.

Ltac wu_ops :=
  repeat first
    [ apply ensureUserStock_wu
    | apply deductFromStock_wu
    | apply addBackToStock_wu
    | apply applyStockAdjustmentForVoucher_wu
    | apply bookStock_wu
    | wu_leaf
    | inv_step ].

Lemma postAdd_wu req w :
  WorldUnified w -> WorldUnified (snd (StockLedger.postAdd env req w)).
Proof.
  intros Hw. unfold StockLedger.postAdd. apply inv_withSession; [|exact Hw].
  unfold StockLedger.toNumber. wu_ops.
Qed.

Lemma postUndo_wu w :
  WorldUnified w -> WorldUnified (snd (StockLedger.postUndo env w)).
Proof.
  intros Hw. unfold StockLedger.postUndo. apply inv_withSession; [|exact Hw]. wu_ops.
Qed.

Lemma postKarigar_wu req w :
  WorldUnified w -> WorldUnified (snd (KarigarRoutes.postKarigar env req w)).
Proof.
  intros Hw. unfold KarigarRoutes.postKarigar. apply inv_respond; [|exact Hw]. wu_ops.
Qed.

Lemma deleteKarigar_wu id w :
  WorldUnified w -> WorldUnified (snd (KarigarRoutes.deleteKarigar env id w)).
Proof.
  intros Hw. unfold KarigarRoutes.deleteKarigar. apply inv_respond; [|exact Hw]. wu_ops.
Qed.

Lemma postSettlement_wu req w :
  WorldUnified w -> WorldUnified (snd (SettlementRoutes.postSettlement env req w)).
Proof.
  intros Hw. unfold SettlementRoutes.postSettlement. apply inv_respond; [|exact Hw].
  unfold SettlementRoutes.adjustStock, SettlementRoutes.finishCreate,
    SettlementRoutes.inverseStockCall.
  wu_ops.
Qed.

Lemma deleteSettlement_wu id w :
  WorldUnified w -> WorldUnified (snd (SettlementRoutes.deleteSettlement env id w)).
Proof.
  intros Hw. unfold SettlementRoutes.deleteSettlement. apply inv_respond; [|exact Hw]. wu_ops.
Qed.

Lemma postVoucher_wu req w :
  WorldUnified w -> WorldUnified (snd (VoucherRoutes.postVoucher env req w)).
Proof.
  intros Hw. unfold VoucherRoutes.postVoucher. apply inv_withSession; [|exact Hw].
  unfold VoucherRoutes.validateCreate, VoucherRoutes.book, VoucherRoutes.buildVoucher.
  wu_ops.
Qed.

Lemma balances_afterRemoval w id v l :
  balances (VoucherRoutes.afterRemoval w id v l) = balances l.
Proof. unfold VoucherRoutes.afterRemoval. now destruct (Nat.eqb _ 0). Qed.

Lemma SnapshotUnified_withStatus st v :
  SnapshotUnified v -> SnapshotUnified (VoucherRoutes.withStatus st v).
Proof. exact (fun H => H). Qed.

Lemma patchVoucher_wu id c w :
  WorldUnified w -> WorldUnified (snd (VoucherRoutes.patchVoucher env id c w)).
Proof.
  intros Hw. unfold VoucherRoutes.patchVoucher. apply inv_withSession; [|exact Hw].
  destruct (negb c); [apply inv_throw|].
  apply inv_get_bind. intros w0 Hw0.
  destruct (vouchers w0 !! id) as [voucher|] eqn:Ev; [|apply inv_ret].
  destruct (status voucher); [|apply inv_ret].
  assert (Hsv : SnapshotUnified voucher) by exact (proj2 Hw0 _ _ Ev).
  apply inv_bindR with (R := SnapshotUnified).
  - destruct (ledgers w0 !! v_ledgerId voucher) as [ledger|] eqn:El;
      [|apply invR_ret; exact Hsv].
    destruct (canReverse env (v_createdAt voucher)); [|apply invR_ret; exact Hsv].
    eapply invR_bind.
    + apply reverseVoucherEffects_wu; [exact Hsv|exact (proj1 Hw0 _ _ El)].
    + intros [v' l'] [Hv' Hl']. simpl in *.
      apply invR_get_bind. intros w1 Hw1.
      eapply invR_bind.
      * apply invR_of_inv. apply inv_save. intros w2 Hw2.
        apply WU_insert_ledger; [|exact Hw2].
        rewrite balances_afterRemoval. exact Hl'.
      * intros _ _. apply invR_ret. exact Hv'.
  - intros v' Hv'. apply inv_bind; [|intros; apply inv_ret].
    apply inv_save. intros w2 Hw2. apply WU_insert_voucher; [|exact Hw2].
    apply SnapshotUnified_withStatus, Hv'.
Qed.

Lemma deleteVoucher_wu id w :
  WorldUnified w -> WorldUnified (snd (VoucherRoutes.deleteVoucher env id w)).
Proof.
  intros Hw. unfold VoucherRoutes.deleteVoucher. apply inv_withSession; [|exact Hw].
  apply inv_get_bind. intros w0 Hw0.
  destruct (vouchers w0 !! id) as [voucher|] eqn:Ev; [|apply inv_ret].
  assert (Hsv : SnapshotUnified voucher) by exact (proj2 Hw0 _ _ Ev).
  cbv zeta. apply inv_bind; [|intros; wu_ops].
  destruct (ledgers w0 !! v_ledgerId voucher) as [ledger|] eqn:El; [|apply inv_ret].
  assert (Hl : Unified (balances ledger)) by exact (proj1 Hw0 _ _ El).
  apply inv_bindR with (R := fun l' => Unified (balances l')).
  - destruct (_ && _).
    + eapply invR_bind.
      * apply reverseVoucherEffects_wu; [exact Hsv|exact Hl].
      * intros [v' l'] [Hv' Hl']. apply invR_ret. exact Hl'.
    + destruct (_ && _).
      * eapply invR_bind; [|intros _ _; apply invR_ret; exact Hl].
        apply invR_of_inv. wu_ops.
      * apply invR_ret. exact Hl.
  - intros l' Hl'. apply inv_get_bind. intros w1 Hw1.
    apply inv_save. intros w2 Hw2. apply WU_insert_ledger; [|exact Hw2].
    rewrite balances_afterRemoval. exact Hl'.
Qed.

Lemma putVoucher_wu id req w :
  WorldUnified w -> WorldUnified (snd (VoucherRoutes.putVoucher env id req w)).
Proof.
  intros Hw. unfold VoucherRoutes.putVoucher. apply inv_withSession; [|exact Hw].
  apply inv_get_bind. intros w0 Hw0.
  destruct (vouchers w0 !! id) as [existing|] eqn:Ev; [|apply inv_ret].
  assert (Hsv : SnapshotUnified existing) by exact (proj2 Hw0 _ _ Ev).
  destruct (status existing); [|apply inv_throw].
  destruct (negb _); [apply inv_throw|].
  cbv zeta.
  destruct (ledgers w0 !! v_ledgerId existing) as [prev0|] eqn:El; [|apply inv_throw].
  eapply inv_bindR.
  { apply reverseVoucherEffects_wu; [exact Hsv|exact (proj1 Hw0 _ _ El)]. }
  intros [v' prev] [Hv' Hprev]. simpl in Hprev. simpl.
  apply inv_bind; [wu_ops|intros _].
  apply inv_bind; [unfold VoucherRoutes.validateEdit; wu_ops|intros [[ledgerId pt] vt]].
  apply inv_bind; [wu_ops|intros cleaned].
  apply inv_get_bind. intros w1 Hw1.
  destruct (if Nat.eqb _ _ then _ else _) as [target|] eqn:Et; [|apply inv_throw].
  assert (Htarget : Unified (balances target)).
  { destruct (Nat.eqb _ _); [inversion Et; subst; exact Hprev|exact (proj1 Hw1 _ _ Et)]. }
  destruct (_ && _); [apply inv_throw|].
  cbv zeta.
  destruct (String.eqb _ ""); [apply inv_throw|].
  destruct (VoucherRoutes.existsActiveVoucher _ _ _); [apply inv_throw|].
  apply inv_bind; [unfold VoucherRoutes.book; wu_ops|intros bk].
  destruct (user w1) as [voucherUser|]; [|apply inv_throw].
  apply inv_bind; [apply bookStock_wu|intros adjustment].
  cbv zeta.
  apply inv_bind; [|intros _].
  { destruct (Nat.eqb _ _); [apply inv_ret|].
    apply inv_get_bind. intros w2 Hw2. wu_ops. }
  unfold VoucherRoutes.buildVoucher. wu_ops.
Qed.

Lemma handle_WorldUnified r w :
  WorldUnified w -> WorldUnified (snd (handle env r w)).
Proof.
  intros Hw. destruct r; simpl.
  - now apply postLedger_wu.
  - now apply patchLedger_wu.
  - now apply deleteLedger_wu.
  - now apply deleteLedgerVouchers_wu.
  - now apply postRecalculateBalance_wu.
  - now apply postVoucher_wu.
  - now apply putVoucher_wu.
  - now apply patchVoucher_wu.
  - now apply deleteVoucher_wu.
  - now apply postSettlement_wu.
  - now apply deleteSettlement_wu.
  - now apply postKarigar_wu.
  - now apply deleteKarigar_wu.
  - now apply postAdd_wu.
  - now apply postUndo_wu.
Qed.

End UnifiedHandlers.

Lemma run_WorldUnified history : forall w, WorldUnified w -> WorldUnified (run history w).
Proof.
  unfold run. induction history as [|[env r] rest IH]; intros w Hw; simpl.
  - exact Hw.
  - apply IH, handle_WorldUnified, Hw.
Qed.

Lemma emptyWorld_unified u : WorldUnified (emptyWorld u).
Proof. split; intros id x Hx; simpl in Hx; now rewrite lookup_empty in Hx. Qed.

(** X1. Whatever requests a tenant has made since its first, on every ledger
    [balances.amount] equals [cashBalance + creditBalance]. *)
Theorem amount_in_sync (history : list (Env * Request)) (u : option User)
        (id : nat) (l : Ledger) :
  ledgers (run history (emptyWorld u)) !! id = Some l ->
  amount (balances l) == cashBalance (balances l) + creditBalance (balances l).
Proof.
  intros Hl.
  exact (proj1 (run_WorldUnified history _ (emptyWorld_unified u)) id l Hl).
Qed.

Lemma amount_in_sync_witness :
  exists l,
    ledgers (run sampleHistory (emptyWorld (Some sampleUser))) !! 0%nat = Some l
    /\ amount (balances l) == cashBalance (balances l) + creditBalance (balances l).
Proof.
  eexists. split.
  - vm_compute. reflexivity.
  - apply (amount_in_sync sampleHistory (Some sampleUser) 0%nat). vm_compute. reflexivity.
Defined.

(** ** Weakest preconditions for handlers *)

Section WpRules.
Context {A : Type}.
Variables (Q : A -> World -> Prop) (E : Error -> World -> Prop).

Lemma wp_ret a w : Q a w -> wp (ret a) Q E w.
Proof. exact (fun H => H). Qed.

Lemma wp_throw e w : E e w -> wp (throw e) Q E w.
Proof. exact (fun H => H). Qed.

Lemma wp_bind {B} (m : M B) (k : B -> M A) w :
  wp m (fun b w' => wp (k b) Q E w') E w -> wp (bind m k) Q E w.
Proof. unfold wp, bind. destruct (m w) as [[b|e] w']; exact (fun H => H). Qed.

Lemma wp_bind_inv {B} (m : M B) (k : B -> M A) w :
  wp (bind m k) Q E w -> wp m (fun b w' => wp (k b) Q E w') E w.
Proof. unfold wp, bind. destruct (m w) as [[b|e] w']; exact (fun H => H). Qed.

Lemma wp_get_bind (k : World -> M A) w :
  wp (k w) Q E w -> wp (bind get k) Q E w.
Proof. exact (fun H => H). Qed.

Lemma wp_tryCatch (body : M A) (handler : Error -> M A) w :
  wp body Q (fun e w' => wp (handler e) Q E w') w -> wp (tryCatch body handler) Q E w.
Proof. unfold wp, tryCatch. destruct (body w) as [[b|e] w']; exact (fun H => H). Qed.

Lemma wp_conseq (m : M A) (Q' : A -> World -> Prop) (E' : Error -> World -> Prop) w :
  wp m Q' E' w ->
  (forall a w', Q' a w' -> Q a w') -> (forall e w', E' e w' -> E e w') ->
  wp m Q E w.
Proof. unfold wp. destruct (m w) as [[b|e] w']; auto. Qed.

End WpRules.

Lemma wp_modify (Q : unit -> World -> Prop) E f w : Q tt (f w) -> wp (modify f) Q E w.
Proof. exact (fun H => H). Qed.

Lemma wp_save env p f (Q : unit -> World -> Prop) (E : Error -> World -> Prop) w :
  (saveFails env p = true -> E storageError w) ->
  (saveFails env p = false -> Q tt (f w)) ->
  wp (save env p f) Q E w.
Proof.
  intros Ht Hf. unfold wp, save. destruct (saveFails env p); [now apply Ht|now apply Hf].
Qed.

Lemma wp_freshId (Q : nat -> World -> Prop) E w :
  Q (nextId w) (bumpId w) -> wp freshId Q E w.
Proof. exact (fun H => H). Qed.


Lemma wp_withSession (P : Response * World -> Prop) env body dflt w :
  wp body
     (fun r w' =>
        P (r, if supportsTransactions env then (if isSuccess r then w' else w) else w'))
     (fun e w' =>
        P (errorResponse e dflt, if supportsTransactions env then w else w'))
     w ->
  P (withSession env body dflt w).
Proof.
  unfold wp, withSession. destruct (body w) as [[r|e] w']; [|exact (fun H => H)].
  destruct (supportsTransactions env); exact (fun H => H).
Qed.

(** The stock primitives as predicate transformers. *)

Lemma setStock_ensured s w : setStock s (ensured w) = setStock s w.
Proof. unfold ensured. now destruct (stock w). Qed.

Lemma stock_ensured w :
  stock (ensured w) = Some (mkStock (goldOf w) (silverOf w) (cashOf w))
  \/ (exists st, stock w = Some st /\ ensured w = w).
Proof.
  unfold ensured, goldOf, silverOf, cashOf. destruct (stock w) as [st|] eqn:E.
  - right. eauto.
  - left. reflexivity.
Qed.

Lemma wp_ensureUserStock (Q : Stock -> World -> Prop) E w :
  (forall st, stock (ensured w) = Some st -> Q st (ensured w)) ->
  wp StockLedger.ensureUserStock Q E w.
Proof.
  intros H. unfold wp, StockLedger.ensureUserStock, bind, get, modify, ret, ensured in *.
  destruct (stock w) as [st|] eqn:Est; simpl.
  - apply H. exact Est.
  - apply H. reflexivity.
Qed.

Lemma wp_deductFromStock g s (Q : Stock -> World -> Prop) (E : Error -> World -> Prop) w :
  ((g < 0 \/ s < 0) -> E INVALID_STOCK_deduct w) ->
  (0 <= g -> 0 <= s -> (goldOf w < g \/ silverOf w < s) -> E InsufficientStock (ensured w)) ->
  (0 <= g -> 0 <= s -> g <= goldOf w -> s <= silverOf w ->
   let st := mkStock (goldOf w + - g) (silverOf w + - s) (cashOf w) in
   Q st (setStock (Some st) w)) ->
  wp (deductFromStock g s) Q E w.
Proof.
  intros Hneg Hins Hok. cbv zeta in Hok. rewrite <- setStock_ensured in Hok.
  pose proof (deductFromStock_spec g s w) as Hspec.
  unfold wp. unfold deductSpec in Hspec.
  unfold StockLedger.deductFromStock, StockLedger.toNumber,
    StockLedger.ensureUserStock, bind, ret, get, modify, throw in *.
  destruct (Qltb g 0) eqn:Hg; simpl in *.
  { apply Hneg. left. now apply Qltb_lt. }
  destruct (Qltb s 0) eqn:Hs; simpl in *.
  { apply Hneg. right. now apply Qltb_lt. }
  apply Qltb_ge in Hg, Hs.
  unfold ensured, goldOf, silverOf, cashOf in *.
  destruct (stock w) as [st|] eqn:Hst; simpl in *; rewrite ?Hst in *; simpl in *.
  - destruct (Qle_bool g (gold st) && Qle_bool s (silver st)) eqn:Hguard; simpl in *.
    + destruct Hspec as (_ & _ & Hgg & Hss & _). now apply Hok.
    + destruct Hspec as (_ & _ & Hc). apply Hins; try assumption. now apply Hc.
  - destruct (Qle_bool g 0 && Qle_bool s 0) eqn:Hguard; simpl in *.
    + destruct Hspec as (_ & _ & Hgg & Hss & _). now apply Hok.
    + destruct Hspec as (_ & _ & Hc). apply Hins; try assumption. now apply Hc.
Qed.

Lemma wp_addBackToStock g s (Q : option Stock -> World -> Prop) (E : Error -> World -> Prop) w :
  ((g < 0 \/ s < 0) -> E INVALID_STOCK_addBack w) ->
  (0 <= g -> 0 <= s ->
   let st := mkStock (goldOf w + g) (silverOf w + s) (cashOf w) in
   Q (Some st) (setStock (Some st) w)) ->
  wp (addBackToStock g s) Q E w.
Proof.
  intros Hneg Hok. cbv zeta in Hok. rewrite <- setStock_ensured in Hok. unfold wp.
  unfold StockLedger.addBackToStock, StockLedger.toNumber,
    StockLedger.ensureUserStock, bind, ret, get, modify, throw in *.
  destruct (Qltb g 0) eqn:Hg; simpl in *.
  { apply Hneg. left. now apply Qltb_lt. }
  destruct (Qltb s 0) eqn:Hs; simpl in *.
  { apply Hneg. right. now apply Qltb_lt. }
  apply Qltb_ge in Hg, Hs.
  unfold ensured, goldOf, silverOf, cashOf in *.
  destruct (stock w) as [st|] eqn:Hst; simpl in *; rewrite ?Hst in *; simpl in *;
    now apply Hok.
Qed.


Ltac wp_step :=
  cbv beta zeta;
  lazymatch goal with
  | |- wp (ret _) _ _ _ => apply wp_ret
  | |- wp (throw _) _ _ _ => apply wp_throw
  | |- wp (bind get _) _ _ _ => apply wp_get_bind
  | |- wp (bind _ _) _ _ _ => apply wp_bind
  | |- wp (modify _) _ _ _ => apply wp_modify
  | |- wp (save _ _ _) _ _ _ => apply wp_save; intros ?
  | |- wp freshId _ _ _ => apply wp_freshId
  | |- wp (tryCatch _ _) _ _ _ => apply wp_tryCatch
  | |- wp (deductFromStock _ _) _ _ _ =>
      apply wp_deductFromStock; [intros ?|intros ? ? ?|intros ? ? ? ?]
  | |- wp (addBackToStock _ _) _ _ _ =>
      apply wp_addBackToStock; [intros ?|intros ? ?]
  | |- wp (if ?c then _ else _) _ _ _ => destruct c eqn:?
  | |- wp (match ?x with _ => _ end) _ _ _ => destruct x eqn:?
  end.

Ltac wp_go := repeat wp_step.

(** ** Stock ledger: round trips and refusals *)

Lemma goldOf_setStock st w : goldOf (setStock (Some st) w) = gold st.
Proof. reflexivity. Qed.
Lemma silverOf_setStock st w : silverOf (setStock (Some st) w) = silver st.
Proof. reflexivity. Qed.
Lemma cashOf_setStock st w : cashOf (setStock (Some st) w) = cashInHand st.
Proof. reflexivity. Qed.

Ltac stock_simpl :=
  repeat rewrite goldOf_setStock in *;
  repeat rewrite silverOf_setStock in *;
  repeat rewrite cashOf_setStock in *;
  cbn [gold silver cashInHand] in *.




(** A negative magnitude is a caller error: both primitives throw
    INVALID_STOCK (status 400) before touching the store, not even
    creating the stock record. *)
Theorem negative_magnitude_refused (g s : Q) (w : World) :
  g < 0 \/ s < 0 ->
  deductFromStock g s w = (Thrown INVALID_STOCK_deduct, w)
  /\ addBackToStock g s w = (Thrown INVALID_STOCK_addBack, w).
Proof.
  intros H.
  assert (Hb : Qltb g 0 || Qltb s 0 = true).
  { apply orb_true_iff. destruct H; [left|right]; now apply Qltb_lt. }
  unfold StockLedger.deductFromStock, StockLedger.addBackToStock, StockLedger.toNumber,
    bind, ret, throw. simpl. rewrite Hb. split; reflexivity.
Qed.

Lemma negative_magnitude_refused_witness :
  (-(1) < 0 \/ 0 < 0)
  /\ deductFromStock (-(1)) 0 (emptyWorld None) = (Thrown INVALID_STOCK_deduct, emptyWorld None).
Proof.
  assert (H : -(1) < 0 \/ 0 < 0) by (left; lra).
  split; [exact H|]. apply (negative_magnitude_refused (-(1)) 0 (emptyWorld None) H).
Defined.

(** ** Stock inputs: add, undo *)


Lemma Qltb_true_of_lt a b : a < b -> Qltb a b = true.
Proof. apply Qltb_lt. Qed.



Lemma lastInputFrom_spec tl : forall pre j b,
  pre !! j = Some b ->
  Forall (fun y => (si_date y <= si_date b)%Z) pre ->
  let r := StockLedger.lastInputFrom tl (length pre) (j, b) in
  (pre ++ tl)%list !! fst r = Some (snd r)
  /\ Forall (fun y => (si_date y <= si_date (snd r))%Z) (pre ++ tl)%list.
Proof.
  induction tl as [|x tl IH]; intros pre j b Hj Hall; simpl.
  - rewrite app_nil_r. split; assumption.
  - replace (S (length pre)) with (length (pre ++ [x])%list) by (rewrite length_app; simpl; lia).
    replace (pre ++ x :: tl)%list with ((pre ++ [x]) ++ tl)%list by (now rewrite <- app_assoc).
    simpl. destruct (Z.ltb (si_date b) (si_date x)) eqn:Hlt.
    + apply Z.ltb_lt in Hlt. apply IH.
      * rewrite lookup_app_r by lia. now rewrite Nat.sub_diag.
      * apply Forall_app. split.
        -- eapply Forall_impl; [exact Hall|]. simpl. intros y Hy. lia.
        -- constructor; [lia|constructor].
    + apply Z.ltb_ge in Hlt. apply IH.
      * apply lookup_app_l_Some. exact Hj.
      * apply Forall_app. split; [exact Hall|]. constructor; [exact Hlt|constructor].
Qed.

(** The input that [POST /undo] picks is a stored one, returned with its
    position, and no stored input has a later date. *)
Theorem findLastInput_latest (l : list StockInput) (idx : nat) (x : StockInput) :
  StockLedger.findLastInput l = Some (idx, x) ->
  l !! idx = Some x /\ Forall (fun y => (si_date y <= si_date x)%Z) l.
Proof.
  destruct l as [|x0 tl]; simpl; [discriminate|].
  intros H. inversion H as [Hr]. clear H.
  pose proof (lastInputFrom_spec tl [x0] 0%nat x0 eq_refl) as Hs.
  simpl in Hs. rewrite Hr in Hs. simpl in Hs. apply Hs.
  constructor; [lia|constructor].
Qed.

Lemma findLastInput_latest_witness :
  StockLedger.findLastInput
    [mkStockInput 1 0 0 10; mkStockInput 2 0 0 30; mkStockInput 3 0 0 20]
  = Some (1%nat, mkStockInput 2 0 0 30)
  /\ [mkStockInput 1 0 0 10; mkStockInput 2 0 0 30; mkStockInput 3 0 0 20] !! 1%nat
     = Some (mkStockInput 2 0 0 30).
Proof.
  split; [reflexivity|].
  apply (findLastInput_latest
           [mkStockInput 1 0 0 10; mkStockInput 2 0 0 30; mkStockInput 3 0 0 20]
           1%nat (mkStockInput 2 0 0 30)).
  reflexivity.
Defined.






(** [POST /undo] refuses without touching anything when there is no
    input to undo, and refuses, with the history and the counters as they
    were, when taking the last input back would drive gold or silver
    below zero. *)
Theorem postUndo_refusals (env : Env) (w : World) :
  (stockInputs w = [] ->
   StockLedger.postUndo env w = (Resp 404 false "No stock input to undo.", w))
  /\ (forall idx x,
        StockLedger.findLastInput (stockInputs w) = Some (idx, x) ->
        (goldOf w < si_gold x \/ silverOf w < si_silver x) ->
        fst (StockLedger.postUndo env w) = Resp 400 false INSUFFICIENT_STOCK
        /\ stockInputs (snd (StockLedger.postUndo env w)) = stockInputs w
        /\ sameStock w (snd (StockLedger.postUndo env w))).
Proof.
  split.
  - intros Hnil. unfold StockLedger.postUndo, withSession, bind, get, throw.
    rewrite Hnil. simpl. now destruct (supportsTransactions env).
  - intros idx x Hfind Hlow.
    unfold StockLedger.postUndo, withSession, bind, get, throw.
    rewrite Hfind.
    unfold StockLedger.ensureUserStock, bind, get, ret, modify, StockLedger.MIN_ALLOWED.
    unfold goldOf, silverOf in Hlow. unfold sameStock, goldOf, silverOf, cashOf.
    destruct (stock w) as [st|] eqn:Hst; cbn [stock setStock gold silver cashInHand].
    + assert (Hb : Qltb (gold st - si_gold x) 0 || Qltb (silver st - si_silver x) 0 = true).
      { apply orb_true_iff. destruct Hlow as [H|H]; [left|right];
          apply Qltb_true_of_lt; lra. }
      rewrite Hb. cbn.
      destruct (supportsTransactions env); cbn; rewrite Hst;
        repeat split; reflexivity.
    + assert (Hb : Qltb (0 - si_gold x) 0 || Qltb (0 - si_silver x) 0 = true).
      { apply orb_true_iff. destruct Hlow as [H|H]; [left|right];
          apply Qltb_true_of_lt; lra. }
      rewrite Hb. cbn.
      destruct (supportsTransactions env); cbn; rewrite ?Hst;
        repeat split; reflexivity.
Qed.

Lemma postUndo_refusals_witness :
  stockInputs sampleWorld = []
  /\ StockLedger.postUndo sampleEnv sampleWorld
     = (Resp 404 false "No stock input to undo.", sampleWorld).
Proof.
  split; [reflexivity|].
  apply (proj1 (postUndo_refusals sampleEnv sampleWorld)). reflexivity.
Defined.


(** ** Reversal window *)




(** ** Karigar transactions *)



Lemma deductFromStock_short g s w :
  0 <= g -> 0 <= s -> (goldOf w < g \/ silverOf w < s) ->
  deductFromStock g s w = (Thrown InsufficientStock, ensured w).
Proof.
  intros Hg Hs Hlow.
  assert (H : wp (deductFromStock g s) (fun _ _ => False)
                 (fun e w' => (Thrown e, w') = (@Thrown Stock InsufficientStock, ensured w)) w).
  { apply wp_deductFromStock; intros; try lra. reflexivity. }
  unfold wp in H. destruct (deductFromStock g s w) as [[a|e] w']; [contradiction|exact H].
Qed.

Ltac world_simpl :=
  cbn [stock ledgers vouchers karigars settlements stockInputs user nextId
       setStock setLedgers setVouchers setKarigars setSettlements setStockInputs
       setUser bumpId gold silver cashInHand fst snd] in *.



Lemma sameStock_ensured w : sameStock w (ensured w).
Proof.
  unfold sameStock, goldOf, silverOf, cashOf, ensured.
  destruct (stock w) as [st|] eqn:E; simpl; rewrite ?E; repeat split; lra.
Qed.




(** X7. Deleting a karigar transaction is refused, and nothing at all is
    changed, when the record does not exist, is already deleted, or is
    older than the reversal window. *)
Theorem deleteKarigar_refusals (env : Env) (id : nat) (w : World) :
  match karigars w !! id with
  | None =>
      KarigarRoutes.deleteKarigar env id w = (Resp 404 false "Transaction not found", w)
  | Some k =>
      (isDeleted k = true ->
       KarigarRoutes.deleteKarigar env id w = (Resp 400 false "Transaction already deleted", w))
      /\ (isDeleted k = false -> canReverse env (k_createdAt k) = false ->
          respStatus (fst (KarigarRoutes.deleteKarigar env id w)) = 400%nat
          /\ isSuccess (fst (KarigarRoutes.deleteKarigar env id w)) = false
          /\ snd (KarigarRoutes.deleteKarigar env id w) = w)
  end.
Proof.
  unfold KarigarRoutes.deleteKarigar, respond, bind, get, ret.
  destruct (karigars w !! id) as [k|] eqn:Ek; [|reflexivity].
  split.
  - intros Hd. now rewrite Hd.
  - intros Hd Hwin. rewrite Hd, Hwin. repeat split.
Qed.

(** X8. A handoff whose fine weight is not a positive finite number is
    refused with nothing changed; a handoff to the karigar that the stock
    does not cover is refused with "Insufficient stock available", no
    record is created and the counters stay as they were. *)
Theorem postKarigar_refusals (env : Env) (req : KarigarRoutes.CreateRequest) (w : World) :
  (toNumber (KarigarRoutes.r_fineWeight req) 0 <= 0 ->
   isSuccess (fst (KarigarRoutes.postKarigar env req w)) = false
   /\ snd (KarigarRoutes.postKarigar env req w) = w)
  /\ (forall metal,
        KarigarRoutes.r_type req = Valid Given ->
        KarigarRoutes.r_metalType req = Valid metal ->
        String.eqb (KarigarRoutes.r_karigarName req) "" = false ->
        String.eqb (KarigarRoutes.r_itemName req) "" = false ->
        0 < toNumber (KarigarRoutes.r_fineWeight req) 0 ->
        metalOf metal w < toNumber (KarigarRoutes.r_fineWeight req) 0 ->
        fst (KarigarRoutes.postKarigar env req w) = Resp 400 false INSUFFICIENT_STOCK
        /\ karigars (snd (KarigarRoutes.postKarigar env req w)) = karigars w
        /\ sameStock w (snd (KarigarRoutes.postKarigar env req w))).
Proof.
  split.
  - intros Hf. apply Qle_bool_iff in Hf.
    unfold KarigarRoutes.postKarigar, respond, bind, ret.
    destruct (KarigarRoutes.r_type req), (KarigarRoutes.r_metalType req);
      try (split; reflexivity);
      destruct (_ || _); try (split; reflexivity).
    rewrite Hf. split; reflexivity.
  - intros metal Hty Hm Hname Hitem Hf Hlow.
    assert (Hle : Qle_bool (toNumber (KarigarRoutes.r_fineWeight req) 0) 0 = false).
    { destruct (Qle_bool _ 0) eqn:E; [|reflexivity]. apply Qle_bool_iff in E. lra. }
    unfold KarigarRoutes.postKarigar, respond, bind, ret.
    rewrite Hty, Hm, Hname, Hitem, Hle. cbn [orb].
    rewrite deductFromStock_short.
    + cbn [fst snd]. split; [reflexivity|]. split.
      * unfold ensured. now destruct (stock w).
      * apply sameStock_ensured.
    + destruct metal; simpl; lra.
    + destruct metal; simpl; lra.
    + unfold metalOf in Hlow.
      destruct metal; simpl; [left|right]; exact Hlow.
Qed.

Lemma postKarigar_refusals_witness :
  fst (KarigarRoutes.postKarigar sampleEnv sampleKarigarGiven (emptyWorld None))
  = Resp 400 false INSUFFICIENT_STOCK
  /\ karigars (snd (KarigarRoutes.postKarigar sampleEnv sampleKarigarGiven (emptyWorld None)))
     = karigars (emptyWorld None)
  /\ sameStock (emptyWorld None)
       (snd (KarigarRoutes.postKarigar sampleEnv sampleKarigarGiven (emptyWorld None))).
Proof.
  apply (proj2 (postKarigar_refusals sampleEnv sampleKarigarGiven (emptyWorld None)) Gold);
    reflexivity.
Defined.

Lemma deleteKarigar_refusals_witness :
  KarigarRoutes.deleteKarigar sampleEnv 7 sampleWorld
  = (Resp 404 false "Transaction not found", sampleWorld).
Proof. exact (deleteKarigar_refusals sampleEnv 7 sampleWorld). Defined.

(** ** Settlements *)

Lemma sameStock_trans w1 w2 w3 : sameStock w1 w2 -> sameStock w2 w3 -> sameStock w1 w3.
Proof. unfold sameStock. intros (?&?&?) (?&?&?). repeat split; lra. Qed.








(** X12. Deleting a settlement is refused with nothing changed when it does
    not exist or is older than the reversal window. *)
Theorem deleteSettlement_refusals (env : Env) (id : nat) (w : World) :
  match settlements w !! id with
  | None =>
      SettlementRoutes.deleteSettlement env id w = (Resp 404 false "Settlement not found", w)
  | Some s =>
      canReverse env (s_createdAt s) = false ->
      respStatus (fst (SettlementRoutes.deleteSettlement env id w)) = 400%nat
      /\ isSuccess (fst (SettlementRoutes.deleteSettlement env id w)) = false
      /\ snd (SettlementRoutes.deleteSettlement env id w) = w
  end.
Proof.
  unfold SettlementRoutes.deleteSettlement, respond, bind, get, ret.
  destruct (settlements w !! id) as [s|] eqn:Es; [|reflexivity].
  intros Hwin. rewrite Hwin. repeat split.
Qed.

Lemma deleteSettlement_refusals_witness :
  SettlementRoutes.deleteSettlement sampleEnv 9 sampleWorld
  = (Resp 404 false "Settlement not found", sampleWorld).
Proof. exact (deleteSettlement_refusals sampleEnv 9 sampleWorld). Defined.



(** ** Ledgers *)

(** The nested [openingBalance] payload wins over the legacy [oldBal*]
    fields; without it the legacy fields are used as soon as one of them
    is present, the absent ones counting as undefined; with neither there
    is no opening balance in the request. *)
Theorem incomingOpeningBalance_priority (req : LedgerRoutes.LedgerRequest) :
  (forall ob, LedgerRoutes.r_openingBalance req = Some ob ->
              LedgerRoutes.incomingOpeningBalance req = Some ob)
  /\ (LedgerRoutes.r_openingBalance req = None ->
      (LedgerRoutes.incomingOpeningBalance req = None
       <-> LedgerRoutes.r_oldBalAmount req = None
           /\ LedgerRoutes.r_oldBalGold req = None
           /\ LedgerRoutes.r_oldBalSilver req = None)
      /\ forall ob, LedgerRoutes.incomingOpeningBalance req = Some ob ->
           ob = LedgerRoutes.mkOpeningRequest
                  (LedgerRoutes.orUndefined (LedgerRoutes.r_oldBalAmount req))
                  (LedgerRoutes.orUndefined (LedgerRoutes.r_oldBalGold req))
                  (LedgerRoutes.orUndefined (LedgerRoutes.r_oldBalSilver req))).
Proof.
  unfold LedgerRoutes.incomingOpeningBalance. split.
  - intros ob H. now rewrite H.
  - intros H. rewrite H.
    destruct (LedgerRoutes.r_oldBalAmount req), (LedgerRoutes.r_oldBalGold req),
      (LedgerRoutes.r_oldBalSilver req); simpl;
      (split; [split; [intros; discriminate || (repeat split; reflexivity)
                      |intros (?&?&?); try discriminate; reflexivity]
              |intros ob Hob; inversion Hob; reflexivity || discriminate]).
Qed.



(** X15. A ledger is deleted only when no voucher and no settlement refers to
    it; otherwise the request is refused with status 400, and in both
    refusals (unknown ledger, ledger with transactions) nothing changes. *)
Theorem deleteLedger_spec (env : Env) (id : nat) (w : World) :
  match ledgers w !! id with
  | None => LedgerRoutes.deleteLedger env id w = (Resp 404 false "Ledger not found", w)
  | Some _ =>
      (vouchersOfLedger id w = ∅ /\ settlementsOfLedger id w = ∅ ->
       LedgerRoutes.deleteLedger env id w
       = (Resp 200 true "Ledger deleted successfully", setLedgers (delete id) w))
      /\ (vouchersOfLedger id w <> ∅ \/ settlementsOfLedger id w <> ∅ ->
          respStatus (fst (LedgerRoutes.deleteLedger env id w)) = 400%nat
          /\ snd (LedgerRoutes.deleteLedger env id w) = w)
  end.
Proof.
  unfold LedgerRoutes.deleteLedger, respond, bind, get, ret, modify.
  destruct (ledgers w !! id) as [l|] eqn:El; [|reflexivity].
  split.
  - intros [Hv Hs]. rewrite Hv, Hs. rewrite !map_size_empty. reflexivity.
  - intros Hne.
    assert (Hb : negb (Nat.eqb (size (vouchersOfLedger id w)) 0)
                 || negb (Nat.eqb (size (settlementsOfLedger id w)) 0) = true).
    { apply orb_true_iff. destruct Hne as [H|H]; [left|right];
        apply negb_true_iff, Nat.eqb_neq; intros Hz; apply H;
        now apply map_size_empty_inv. }
    rewrite Hb. split; reflexivity.
Qed.

Lemma deleteLedger_spec_witness :
  LedgerRoutes.deleteLedger sampleEnv 0 sampleWorld
  = (Resp 200 true "Ledger deleted successfully", setLedgers (delete 0%nat) sampleWorld).
Proof.
  apply (proj1 (deleteLedger_spec sampleEnv 0 sampleWorld)).
  split; reflexivity.
Defined.

Lemma filter_filter_out {A} (P : nat * A -> Prop) `{forall x, Decision (P x)}
      (m : gmap nat A) :
  filter P (filter (fun kv => ~ P kv) m) = ∅.
Proof.
  apply map_empty. intros k. apply map_lookup_filter_None. right.
  intros x Hx HP. apply map_lookup_filter_Some in Hx. destruct Hx as [_ Hn]. now apply Hn.
Qed.

(** X16. Purging a ledger's transactions deletes every voucher and settlement
    that refers to it and none that refers to another ledger, sets all
    five balances to zero (not to the opening balance) and clears
    hasVouchers; the stock is not touched. *)
Theorem purge_spec (env : Env) (id : nat) (l : Ledger) (w : World) :
  let r := LedgerRoutes.deleteLedgerVouchers env id w in
  ledgers w !! id = Some l ->
  saveFails env SaveLedger = false ->
  fst r = Resp 200 true "All vouchers and settlements deleted successfully"
  /\ ledgers (snd r) !! id = Some (withHasVouchers false (withBalances resetBalances l))
  /\ vouchersOfLedger id (snd r) = ∅
  /\ settlementsOfLedger id (snd r) = ∅
  /\ (forall k v, v_ledgerId v <> id ->
        vouchers w !! k = Some v -> vouchers (snd r) !! k = Some v)
  /\ (forall k s, s_ledgerId s <> id ->
        settlements w !! k = Some s -> settlements (snd r) !! k = Some s)
  /\ stock (snd r) = stock w.
Proof.
  intros r Hl Hsave. unfold r, LedgerRoutes.deleteLedgerVouchers, respond, bind, get, ret,
    modify, save.
  rewrite Hl, Hsave. cbn [fst snd].
  split; [reflexivity|]. split; [apply lookup_insert_eq|].
  split; [apply (filter_filter_out (fun kv => v_ledgerId (snd kv) = id))|].
  split; [apply (filter_filter_out (fun kv => s_ledgerId (snd kv) = id))|].
  split; [|split; [|reflexivity]].
  - intros k v Hne Hk. cbn. apply map_lookup_filter_Some. split; [exact Hk|exact Hne].
  - intros k s Hne Hk. cbn. apply map_lookup_filter_Some. split; [exact Hk|exact Hne].
Qed.

Lemma purge_spec_witness :
  fst (LedgerRoutes.deleteLedgerVouchers sampleEnv 0 scenario4World)
  = Resp 200 true "All vouchers and settlements deleted successfully"
  /\ ledgers (snd (LedgerRoutes.deleteLedgerVouchers sampleEnv 0 scenario4World)) !! 0%nat
     = Some (withHasVouchers false
               (withBalances resetBalances
                  (mkLedger "Asha" Regular (mkOpening 0 0 0) (mkBalances 3 0 1000 0 1000) true))).
Proof.
  destruct (purge_spec sampleEnv 0
              (mkLedger "Asha" Regular (mkOpening 0 0 0) (mkBalances 3 0 1000 0 1000) true)
              scenario4World eq_refl eq_refl) as (H1 & H2 & _).
  split; [exact H1|exact H2].
Defined.



(** X18. Recalculation is a repair: when the storage accepts its writes, its
    outcome depends on the opening balance and the stored vouchers and
    settlements only, not on the balances the ledger currently shows. *)
Theorem recalculation_ignores_current_balances (env : Env) (id : nat) (l : Ledger)
        (b : Balances) (w : World) :
  ledgers w !! id = Some l ->
  (forall p, saveFails env p = false) ->
  LedgerRoutes.postRecalculateBalance env id (setLedgers (insert id (withBalances b l)) w)
  = LedgerRoutes.postRecalculateBalance env id w.
Proof.
  intros Hl Hsave.
  unfold LedgerRoutes.postRecalculateBalance, respond, bind, get, ret, save.
  cbn [ledgers setLedgers]. rewrite lookup_insert_eq, Hl.
  change (activeVouchersOfLedger id (setLedgers _ w)) with (activeVouchersOfLedger id w).
  change (settlementsOfLedger id (setLedgers _ w)) with (settlementsOfLedger id w).
  cbn [ledgerType withBalances openingBalance].
  assert (Hins : forall (x : Ledger) (f : gmap nat Voucher -> gmap nat Voucher),
             setLedgers (insert id x)
               (setVouchers f (setLedgers (insert id (withBalances b l)) w))
             = setLedgers (insert id x) (setVouchers f w)).
  { intros x f. unfold setLedgers, setVouchers. cbn. now rewrite insert_insert_eq. }
  assert (Hins' : forall (x : Ledger),
             setLedgers (insert id x) (setLedgers (insert id (withBalances b l)) w)
             = setLedgers (insert id x) w).
  { intros x. unfold setLedgers. cbn. now rewrite insert_insert_eq. }
  rewrite !Hsave.
  destruct (existsb _ _); destruct (ledgerType l);
    unfold modify, throw, ret; cbv beta iota zeta; rewrite ?Hins, ?Hins'; reflexivity.
Qed.

Lemma recalculation_ignores_current_balances_witness :
  LedgerRoutes.postRecalculateBalance sampleEnv 0
    (setLedgers (insert 0%nat (withBalances (mkBalances 9 9 9 9 9) sampleLedger)) sampleWorld)
  = LedgerRoutes.postRecalculateBalance sampleEnv 0 sampleWorld.
Proof.
  apply (recalculation_ignores_current_balances sampleEnv 0 sampleLedger
           (mkBalances 9 9 9 9 9) sampleWorld).
  - reflexivity.
  - intros p. reflexivity.
Defined.

(** ** Vouchers: the stock step *)

Lemma onlyStock_refl w : onlyStock w w.
Proof. unfold onlyStock. repeat split. Qed.

Lemma onlyStock_trans w1 w2 w3 : onlyStock w1 w2 -> onlyStock w2 w3 -> onlyStock w1 w3.
Proof.
  unfold onlyStock. intros (?&?&?&?&?&?&?) (?&?&?&?&?&?&?).
  repeat split; congruence.
Qed.

Lemma onlyStock_setStock s w0 w : onlyStock w0 w -> onlyStock w0 (setStock s w).
Proof. exact (fun H => H). Qed.

Lemma invR_wp {A} (I : World -> Prop) (m : M A) (R : A -> Prop) w :
  invR I m R -> I w ->
  wp m (fun a w' => I w' /\ R a) (fun _ w' => I w') w.
Proof.
  intros Hm Hw. destruct (Hm w Hw) as [Hi Hr]. unfold wp.
  destruct (m w) as [[a|e] w']; simpl in *; auto.
Qed.

Section StockFrame.
Variable w0 : World.

Ltac os_leaf :=
  lazymatch goal with
  | |- inv _ get => apply inv_get
  | |- inv _ (modify (setStock _)) => apply inv_modify; intros ? ?; assumption
  end.

Lemma ensureUserStock_frame : inv (onlyStock w0) StockLedger.ensureUserStock.
Proof. unfold StockLedger.ensureUserStock. repeat first [os_leaf | inv_step]. Qed.

Lemma deductFromStock_frame g s : inv (onlyStock w0) (deductFromStock g s).
Proof.
  unfold StockLedger.deductFromStock, StockLedger.toNumber.
  repeat first [apply ensureUserStock_frame | os_leaf | inv_step].
Qed.

Lemma addBackToStock_frame g s : inv (onlyStock w0) (addBackToStock g s).
Proof.
  unfold StockLedger.addBackToStock, StockLedger.toNumber.
  repeat first [apply ensureUserStock_frame | os_leaf | inv_step].
Qed.

Lemma applyStockAdjustmentForVoucher_frame adj vt rev :
  inv (onlyStock w0) (VoucherRoutes.applyStockAdjustmentForVoucher adj vt rev).
Proof.
  unfold VoucherRoutes.applyStockAdjustmentForVoucher.
  repeat first [apply deductFromStock_frame | apply addBackToStock_frame | os_leaf | inv_step].
Qed.

Lemma bookStock_frame u pt vt its :
  invR (onlyStock w0) (VoucherRoutes.bookStock u pt vt its)
       (fun adj => adj = expectedAdjustment u pt its).
Proof.
  unfold VoucherRoutes.bookStock, expectedAdjustment.
  destruct (stockMode u); [|apply invR_ret; reflexivity].
  destruct (VoucherRoutes.usesStockAdjustment pt); [|apply invR_ret; reflexivity].
  eapply invR_bind with (R := fun _ => True).
  - apply invR_of_inv. destruct (VoucherRoutes.hasNonZeroStockAdjustment _).
    + apply applyStockAdjustmentForVoucher_frame.
    + apply inv_ret.
  - intros _ _. apply invR_ret. reflexivity.
Qed.

End StockFrame.



(** ** Vouchers: what a successful create has done *)

Lemma cleanItems_pure raw : forall index w, snd (VoucherRoutes.cleanItems index raw w) = w.
Proof.
  induction raw as [|item rest IH]; intros index w; simpl; [reflexivity|].
  destruct (VoucherRoutes.ri_metalType item); try reflexivity.
  destruct (String.eqb _ _); [reflexivity|].
  unfold bind. specialize (IH (S index) w).
  destruct (VoucherRoutes.cleanItems (S index) rest w) as [[tl|e] w']; simpl in *;
    now subst.
Qed.

Lemma wp_cleanItems index raw (Q : list Item -> World -> Prop) E w :
  (forall cleaned, VoucherRoutes.cleanItems index raw w = (Returned cleaned, w) -> Q cleaned w) ->
  (forall e, E e w) ->
  wp (VoucherRoutes.cleanItems index raw) Q E w.
Proof.
  intros HQ HE. unfold wp. pose proof (cleanItems_pure raw index w) as Hp.
  destruct (VoucherRoutes.cleanItems index raw w) as [[c|e] w']; simpl in Hp; subst.
  - now apply HQ.
  - apply HE.
Qed.

Lemma wp_bookStock u pt vt its (Q : Q * Q -> World -> Prop) (E : Error -> World -> Prop) w :
  (forall w', onlyStock w w' ->
     VoucherRoutes.bookStock u pt vt its w = (Returned (expectedAdjustment u pt its), w') ->
     Q (expectedAdjustment u pt its) w') ->
  (forall e w', onlyStock w w' -> E e w') ->
  wp (VoucherRoutes.bookStock u pt vt its) Q E w.
Proof.
  intros HQ HE.
  pose proof (invR_wp (onlyStock w) _ _ w (bookStock_frame w u pt vt its) (onlyStock_refl w)) as H.
  unfold wp in *.
  destruct (VoucherRoutes.bookStock u pt vt its w) as [[adj|e] w'].
  - destruct H as [Hos ->]. now apply HQ.
  - now apply HE.
Qed.

Lemma postVoucher_success env req w :
  isSuccess (fst (VoucherRoutes.postVoucher env req w)) = true ->
  exists ledgerId pt vt cleaned l u bk number w1,
    VoucherRoutes.validateCreate req w = (Returned (ledgerId, pt, vt), w)
    /\ (if VoucherRoutes.isBillingType pt
        then VoucherRoutes.cleanItems 0 (VoucherRoutes.rawItems req) w = (Returned cleaned, w)
        else cleaned = [])
    /\ ledgers w !! ledgerId = Some l
    /\ user w = Some u
    /\ VoucherRoutes.book req pt vt cleaned l w = (Returned bk, w)
    /\ onlyStock w w1
    /\ VoucherRoutes.bookStock u pt vt cleaned w
       = (Returned (expectedAdjustment u pt cleaned), w1)
    /\ ledgers (snd (VoucherRoutes.postVoucher env req w))
       = <[ledgerId := bookedLedger req pt vt cleaned bk l]> (ledgers w)
    /\ vouchers (snd (VoucherRoutes.postVoucher env req w))
       = <[nextId w := createdVoucher env req number ledgerId pt vt cleaned bk l u]> (vouchers w)
    /\ stock (snd (VoucherRoutes.postVoucher env req w)) = stock w1.
Proof.
  apply (wp_withSession
           (fun rw => isSuccess (fst rw) = true ->
              exists ledgerId pt vt cleaned l u bk number w1,
                VoucherRoutes.validateCreate req w = (Returned (ledgerId, pt, vt), w)
                /\ (if VoucherRoutes.isBillingType pt
                    then VoucherRoutes.cleanItems 0 (VoucherRoutes.rawItems req) w
                         = (Returned cleaned, w)
                    else cleaned = [])
                /\ ledgers w !! ledgerId = Some l
                /\ user w = Some u
                /\ VoucherRoutes.book req pt vt cleaned l w = (Returned bk, w)
                /\ onlyStock w w1
                /\ VoucherRoutes.bookStock u pt vt cleaned w
                   = (Returned (expectedAdjustment u pt cleaned), w1)
                /\ ledgers (snd rw) = <[ledgerId := bookedLedger req pt vt cleaned bk l]> (ledgers w)
                /\ vouchers (snd rw)
                   = <[nextId w := createdVoucher env req number ledgerId pt vt cleaned bk l u]>
                       (vouchers w)
                /\ stock (snd rw) = stock w1)).
  apply wp_bind.
  destruct (VoucherRoutes.validateCreate req w) as [[[[ledgerId pt] vt]|e] wv] eqn:Hval.
  2:{ unfold wp. rewrite Hval. cbn. discriminate. }
  assert (wv = w).
  { revert Hval. unfold VoucherRoutes.validateCreate, ret, throw.
    repeat match goal with
           | |- context [match ?x with _ => _ end] => destruct x
           end; intros H; inversion H; reflexivity. }
  subst wv. unfold wp at 1. rewrite Hval. cbv beta iota zeta.
  apply wp_bind.
  apply wp_conseq with
    (Q' := fun cleaned w' =>
             w' = w /\ if VoucherRoutes.isBillingType pt
                       then VoucherRoutes.cleanItems 0 (VoucherRoutes.rawItems req) w
                            = (Returned cleaned, w)
                       else cleaned = [])
    (E' := fun _ _ => True).
  { destruct (VoucherRoutes.isBillingType pt).
    - apply wp_cleanItems; [intros c Hc; split; [reflexivity|exact Hc]|intros; exact Logic.I].
    - apply wp_ret. split; reflexivity. }
  2:{ intros e w' _. cbn. destruct (supportsTransactions env); discriminate. }
  intros cleaned w' [-> Hclean].
  apply wp_get_bind.
  destruct (ledgers w !! ledgerId) as [l|] eqn:Hl;
    [|apply wp_throw; cbn; destruct (supportsTransactions env); discriminate].
  destruct (user w) as [u|] eqn:Hu;
    [|apply wp_throw; cbn; destruct (supportsTransactions env); discriminate].
  cbv zeta.
  destruct (_ && _);
    [apply wp_throw; cbn; destruct (supportsTransactions env); discriminate|].
  destruct (VoucherRoutes.existsActiveVoucher _ _ _);
    [apply wp_throw; cbn; destruct (supportsTransactions env); discriminate|].
  apply wp_bind.
  destruct (VoucherRoutes.book req pt vt cleaned l w) as [[bk|e] wb] eqn:Hbook.
  2:{ unfold wp. rewrite Hbook. cbn. destruct (supportsTransactions env); discriminate. }
  assert (wb = w).
  { revert Hbook. unfold VoucherRoutes.book, ret, throw.
    repeat match goal with
           | |- context [match ?x with _ => _ end] => destruct x
           end; intros H; inversion H; reflexivity. }
  subst wb. unfold wp at 1. rewrite Hbook. cbv beta iota zeta.
  apply wp_bind. apply wp_bookStock.
  2:{ intros e w' _. cbn. destruct (supportsTransactions env); discriminate. }
  intros w1 Hos Hbs.
  destruct Hos as (Hl1 & Hv1 & Hs1 & Hk1 & Hi1 & Hu1 & Hn1).
  wp_go; cbn [fst snd isSuccess errorResponse];
    try (destruct (supportsTransactions env); discriminate);
    intros _;
    exists ledgerId, pt, vt, cleaned, l, u, bk;
    eexists; exists w1;
    (split; [first [reflexivity|assumption]|]); (split; [exact Hclean|]);
    (split; [first [reflexivity|assumption]|]);
    (split; [first [reflexivity|assumption]|]);
    (split; [first [reflexivity|assumption]|]);
    (split; [repeat split; assumption|]); (split; [exact Hbs|]);
    destruct (supportsTransactions env); world_simpl;
    rewrite ?Hl1, ?Hv1, ?Hn1;
    (split; [reflexivity|]); (split; [reflexivity|reflexivity]).
Qed.

(** ** Vouchers: create, cancel and delete *)

Lemma Qmax0_split g : Qmax0 g - Qmax0 (- g) == g.
Proof.
  unfold Qmax0. destruct (Qle_bool 0 g) eqn:E1; destruct (Qle_bool 0 (- g)) eqn:E2.
  - apply Qle_bool_iff in E1, E2. lra.
  - lra.
  - lra.
  - assert (~ 0 <= g) by (rewrite <- Qle_bool_iff; congruence).
    assert (~ 0 <= - g) by (rewrite <- Qle_bool_iff; congruence). lra.
Qed.

Lemma applyStock_delta adj vt rev w :
  wp (VoucherRoutes.applyStockAdjustmentForVoucher adj vt rev)
     (fun _ w' => stockMoved vt rev adj w w')
     (fun _ _ => True) w.
Proof.
  unfold VoucherRoutes.applyStockAdjustmentForVoucher, stockMoved.
  destruct adj as [g s]. cbn [fst snd].
  pose proof (Qmax0_nonneg g). pose proof (Qmax0_nonneg s).
  pose proof (Qmax0_nonneg (- g)). pose proof (Qmax0_nonneg (- s)).
  pose proof (Qmax0_split g) as Hg. pose proof (Qmax0_split s) as Hs.
  generalize dependent (Qmax0 g). generalize dependent (Qmax0 s).
  generalize dependent (Qmax0 (- g)). generalize dependent (Qmax0 (- s)).
  intros ns Hns ng Hng ps Hps0 Hps pg Hpg0 Hpg.
  destruct vt, rev; cbn [negb stockSign];
    wp_go; stock_simpl; try exact Logic.I;
    repeat match goal with
           | H : _ || _ = false |- _ => apply orb_false_iff in H; destruct H
           | H : Qltb _ _ = false |- _ => apply Qltb_ge in H
           | H : Qltb _ _ = true |- _ => apply Qltb_lt in H
           end;
    repeat split; lra.
Qed.

Lemma snapshotOf_id b : VoucherRoutes.snapshotOf b = b.
Proof. now destruct b. Qed.

Lemma validateCreate_inv req w ledgerId pt vt :
  VoucherRoutes.validateCreate req w = (Returned (ledgerId, pt, vt), w) ->
  VoucherRoutes.r_ledgerId req = Some ledgerId
  /\ VoucherRoutes.r_paymentType req = Valid pt
  /\ vt = match VoucherRoutes.r_voucherType req with Valid t => t | _ => Sale end.
Proof.
  unfold VoucherRoutes.validateCreate, ret, throw.
  destruct (VoucherRoutes.r_voucherType req); try discriminate;
    destruct (VoucherRoutes.r_ledgerId req); try discriminate;
    destruct (VoucherRoutes.r_paymentType req); try discriminate;
    destruct (_ && _); try discriminate;
    intros H; inversion H; subst; repeat split.
Qed.


(** A successfully created voucher is stored active, with stockRestored
    false, stamped with the request time, and carrying as its
    previousLedgerState exactly the balances its ledger had before the
    request; the ledger is marked as having vouchers. *)
Theorem voucher_create_snapshot (env : Env) (req : VoucherRoutes.VoucherRequest) (w : World) :
  isSuccess (fst (VoucherRoutes.postVoucher env req w)) = true ->
  exists ledgerId l l' v,
    VoucherRoutes.r_ledgerId req = Some ledgerId
    /\ ledgers w !! ledgerId = Some l
    /\ ledgers (snd (VoucherRoutes.postVoucher env req w)) !! ledgerId = Some l'
    /\ hasVouchers l' = true
    /\ vouchers (snd (VoucherRoutes.postVoucher env req w)) !! nextId w = Some v
    /\ v_ledgerId v = ledgerId
    /\ previousLedgerState v = Some (balances l)
    /\ status v = Active
    /\ stockRestored v = false
    /\ v_createdAt v = Some (now env).
Proof.
  intros Hs.
  destruct (postVoucher_success env req w Hs)
    as (ledgerId & pt & vt & cleaned & l & u & bk & number & w1
        & Hval & _ & Hl & _ & _ & _ & _ & Hled & Hvou & _).
  destruct (validateCreate_inv _ _ _ _ _ Hval) as (Hid & _ & _).
  exists ledgerId, l. eexists. eexists.
  split; [exact Hid|]. split; [exact Hl|].
  split; [rewrite Hled; apply lookup_insert_eq|].
  split; [reflexivity|].
  split; [rewrite Hvou; apply lookup_insert_eq|].
  split; [reflexivity|].
  split; [cbn; now rewrite snapshotOf_id|].
  repeat split.
Qed.

Lemma voucher_create_snapshot_witness :
  isSuccess (fst (VoucherRoutes.postVoucher sampleEnv sampleCreditSale stockedWorld)) = true
  /\ exists v,
       vouchers (snd (VoucherRoutes.postVoucher sampleEnv sampleCreditSale stockedWorld))
         !! nextId stockedWorld = Some v
       /\ previousLedgerState v = Some (balances sampleLedger).
Proof.
  assert (Hs : isSuccess (fst (VoucherRoutes.postVoucher sampleEnv sampleCreditSale stockedWorld))
               = true) by (vm_compute; reflexivity).
  split; [exact Hs|].
  destruct (voucher_create_snapshot sampleEnv sampleCreditSale stockedWorld Hs)
    as (ledgerId & l & l' & v & Hid & Hl & _ & _ & Hv & _ & Hp & _).
  exists v. split; [exact Hv|].
  inversion Hid; subst. cbn in Hl. inversion Hl; subst. exact Hp.
Defined.

(** X20. A voucher booked as a GST invoice, or on a GST ledger, leaves that
    ledger's five balances exactly as they were. *)
Theorem gst_voucher_leaves_balances (env : Env) (req : VoucherRoutes.VoucherRequest)
        (w : World) (ledgerId : nat) (l : Ledger) :
  isSuccess (fst (VoucherRoutes.postVoucher env req w)) = true ->
  VoucherRoutes.r_ledgerId req = Some ledgerId ->
  ledgers w !! ledgerId = Some l ->
  VoucherRoutes.r_invoiceType req = GstInvoice \/ ledgerType l = Gst ->
  exists l', ledgers (snd (VoucherRoutes.postVoucher env req w)) !! ledgerId = Some l'
             /\ balances l' = balances l.
Proof.
  intros Hs Hid Hl Hgst.
  destruct (postVoucher_success env req w Hs)
    as (ledgerId' & pt & vt & cleaned & l0 & u & bk & number & w1
        & Hval & _ & Hl0 & _ & _ & _ & _ & Hled & _ & _).
  destruct (validateCreate_inv _ _ _ _ _ Hval) as (Hid' & _ & _).
  assert (ledgerId' = ledgerId) by congruence. subst ledgerId'.
  assert (l0 = l) by congruence. subst l0.
  eexists. split; [rewrite Hled; apply lookup_insert_eq|].
  unfold bookedLedger, VoucherRoutes.applyVoucherBalances. cbn.
  destruct Hgst as [H|H]; rewrite H; [reflexivity|].
  now destruct (VoucherRoutes.r_invoiceType req).
Qed.

Lemma gst_voucher_leaves_balances_witness :
  exists l', ledgers (snd (VoucherRoutes.postVoucher sampleEnv sampleGstSale stockedWorld))
               !! 0%nat = Some l'
             /\ balances l' = balances sampleLedger.
Proof.
  apply (gst_voucher_leaves_balances sampleEnv sampleGstSale stockedWorld 0 sampleLedger).
  - vm_compute; reflexivity.
  - reflexivity.
  - reflexivity.
  - left; reflexivity.
Defined.

Lemma bookStock_settlement u pt vt its w r w1 :
  VoucherRoutes.isSettlementType pt = true ->
  VoucherRoutes.bookStock u pt vt its w = (r, w1) -> w1 = w.
Proof.
  unfold VoucherRoutes.bookStock, VoucherRoutes.isSettlementType,
    VoucherRoutes.usesStockAdjustment.
  intros Hp. apply negb_true_iff in Hp. rewrite Hp.
  destruct (stockMode u); unfold ret; intros H; now inversion H.
Qed.

(** X21. A money-to-metal voucher on a regular ledger with a normal invoice
    takes cashReceived / rate (the rate read as 1 when it is absent or
    zero) off the ledger's fine weight of that metal, and nothing else:
    cashBalance and creditBalance stay as they were, the other metal is
    untouched, amount is re-derived as their sum, and the stock record is
    not touched. *)
Theorem money_conversion_effect (env : Env) (req : VoucherRoutes.VoucherRequest)
        (w : World) (ledgerId : nat) (l : Ledger) (m : Metal) :
  isSuccess (fst (VoucherRoutes.postVoucher env req w)) = true ->
  VoucherRoutes.r_ledgerId req = Some ledgerId ->
  ledgers w !! ledgerId = Some l ->
  VoucherRoutes.r_invoiceType req = Normal ->
  ledgerType l = Regular ->
  VoucherRoutes.r_paymentType req
  = Valid (match m with Gold => money_to_gold | Silver => money_to_silver end) ->
  exists l',
    ledgers (snd (VoucherRoutes.postVoucher env req w)) !! ledgerId = Some l'
    /\ getFine m (balances l')
       = getFine m (balances l)
         - toNumber (VoucherRoutes.r_cashReceived req) 0
           / orElse (toNumber (match m with
                               | Gold => VoucherRoutes.r_goldRate req
                               | Silver => VoucherRoutes.r_silverRate req
                               end) 0) 1
    /\ getFine (match m with Gold => Silver | Silver => Gold end) (balances l')
       = getFine (match m with Gold => Silver | Silver => Gold end) (balances l)
    /\ cashBalance (balances l') = cashBalance (balances l)
    /\ creditBalance (balances l') = creditBalance (balances l)
    /\ amount (balances l') = creditBalance (balances l) + cashBalance (balances l)
    /\ stock (snd (VoucherRoutes.postVoucher env req w)) = stock w.
Proof.
  intros Hs Hid Hl Hinv Hreg Hpt.
  destruct (postVoucher_success env req w Hs)
    as (ledgerId' & pt & vt & cleaned & l0 & u & bk & number & w1
        & Hval & _ & Hl0 & _ & _ & _ & Hbs & Hled & _ & Hst).
  destruct (validateCreate_inv _ _ _ _ _ Hval) as (Hid' & Hpt' & _).
  assert (ledgerId' = ledgerId) by congruence. subst ledgerId'.
  assert (l0 = l) by congruence. subst l0.
  assert (Hpt2 : pt = match m with Gold => money_to_gold | Silver => money_to_silver end)
    by congruence.
  assert (w1 = w).
  { eapply bookStock_settlement; [|exact Hbs].
    rewrite Hpt2. now destruct m. }
  subst w1.
  eexists. split; [rewrite Hled; apply lookup_insert_eq|].
  unfold bookedLedger, VoucherRoutes.applyVoucherBalances.
  rewrite Hinv, Hreg, Hpt2.
  destruct m; cbn; repeat split; first [exact Hst | unfold calculateUnifiedAmount; reflexivity].
Qed.

Lemma money_conversion_effect_witness :
  exists l',
    ledgers (snd (VoucherRoutes.postVoucher sampleEnv sampleMoneyToGold sampleWorld))
      !! 0%nat = Some l'
    /\ goldFineWeight (balances l') = 0 - 12000 / orElse 6000 1
    /\ cashBalance (balances l') = 0.
Proof.
  assert (Hs : isSuccess (fst (VoucherRoutes.postVoucher sampleEnv sampleMoneyToGold sampleWorld))
               = true) by (vm_compute; reflexivity).
  destruct (money_conversion_effect sampleEnv sampleMoneyToGold sampleWorld 0 sampleLedger Gold
              Hs eq_refl eq_refl eq_refl eq_refl eq_refl)
    as (l' & Hl' & Hg & _ & Hc & _).
  exists l'. split; [exact Hl'|]. split; [exact Hg|exact Hc].
Defined.





Lemma wp_applyStock adj vt rev (Q : unit -> World -> Prop) (E : Error -> World -> Prop) w :
  (forall w', onlyStock w w' -> stockMoved vt rev adj w w' ->
     VoucherRoutes.applyStockAdjustmentForVoucher adj vt rev w = (Returned tt, w') ->
     Q tt w') ->
  (forall e w', onlyStock w w' -> E e w') ->
  wp (VoucherRoutes.applyStockAdjustmentForVoucher adj vt rev) Q E w.
Proof.
  intros HQ HE.
  pose proof (applyStock_delta adj vt rev w) as Hd.
  pose proof (applyStockAdjustmentForVoucher_frame w adj vt rev w (onlyStock_refl w)) as Hf.
  unfold wp in *.
  destruct (VoucherRoutes.applyStockAdjustmentForVoucher adj vt rev w) as [[[]|e] w'];
    simpl in Hf.
  - apply HQ; [exact Hf|exact Hd|reflexivity].
  - now apply HE.
Qed.

Lemma wp_reverseVoucherEffects (v : Voucher) (l : Ledger) (mr : bool)
      (Q : Voucher * Ledger -> World -> Prop) (E : Error -> World -> Prop) w :
  (forall (v' : Voucher) (w' : World),
     onlyStock w w' ->
     (if restoresStock v
      then stockMoved (voucherType v) true (VoucherRoutes.getVoucherStockAdjustment v) w w'
           /\ v' = (if mr then VoucherRoutes.withStockRestored true v else v)
      else w' = w /\ v' = v) ->
     Q (v', withBalances (VoucherRoutes.reversedBalances v l) l) w') ->
  (forall e w', onlyStock w w' -> E e w') ->
  wp (VoucherRoutes.reverseVoucherEffects v l true mr) Q E w.
Proof.
  intros HQ HE. unfold VoucherRoutes.reverseVoucherEffects.
  cbv zeta. cbn [andb]. fold (restoresStock v).
  destruct (restoresStock v) eqn:Hr.
  - apply wp_bind. apply wp_bind. apply wp_applyStock.
    + intros w' Hos Hmv _. apply wp_ret. apply wp_ret. apply HQ; [exact Hos|].
      split; [exact Hmv|reflexivity].
    + intros e w' Hos. now apply HE.
  - apply wp_bind. apply wp_ret. apply wp_ret. apply HQ; [apply onlyStock_refl|].
    split; reflexivity.
Qed.

Lemma afterRemoval_balances w id v l :
  balances (VoucherRoutes.afterRemoval w id v l) = balances l.
Proof.
  unfold VoucherRoutes.afterRemoval. cbv zeta. now destruct (Nat.eqb _ 0).
Qed.

Lemma patchVoucher_success env id c w :
  isSuccess (fst (VoucherRoutes.patchVoucher env id c w)) = true ->
  exists v v',
    vouchers w !! id = Some v /\ status v = Active
    /\ vouchers (snd (VoucherRoutes.patchVoucher env id c w))
       = <[id := VoucherRoutes.withStatus Cancelled v']> (vouchers w)
    /\ match ledgers w !! v_ledgerId v with
       | Some l =>
           if canReverse env (v_createdAt v) then
             (exists l',
                ledgers (snd (VoucherRoutes.patchVoucher env id c w))
                = <[v_ledgerId v := l']> (ledgers w)
                /\ balances l' = VoucherRoutes.reversedBalances v l)
             /\ (if restoresStock v
                 then stockMoved (voucherType v) true (VoucherRoutes.getVoucherStockAdjustment v)
                        w (snd (VoucherRoutes.patchVoucher env id c w))
                      /\ v' = VoucherRoutes.withStockRestored true v
                 else stock (snd (VoucherRoutes.patchVoucher env id c w)) = stock w /\ v' = v)
           else
             ledgers (snd (VoucherRoutes.patchVoucher env id c w)) = ledgers w
             /\ stock (snd (VoucherRoutes.patchVoucher env id c w)) = stock w /\ v' = v
       | None =>
           ledgers (snd (VoucherRoutes.patchVoucher env id c w)) = ledgers w
           /\ stock (snd (VoucherRoutes.patchVoucher env id c w)) = stock w /\ v' = v
       end.
Proof.
  apply (wp_withSession
           (fun rw => isSuccess (fst rw) = true ->
              exists v v',
                vouchers w !! id = Some v /\ status v = Active
                /\ vouchers (snd rw) = <[id := VoucherRoutes.withStatus Cancelled v']> (vouchers w)
                /\ match ledgers w !! v_ledgerId v with
                   | Some l =>
                       if canReverse env (v_createdAt v) then
                         (exists l',
                            ledgers (snd rw) = <[v_ledgerId v := l']> (ledgers w)
                            /\ balances l' = VoucherRoutes.reversedBalances v l)
                         /\ (if restoresStock v
                             then stockMoved (voucherType v) true
                                    (VoucherRoutes.getVoucherStockAdjustment v) w (snd rw)
                                  /\ v' = VoucherRoutes.withStockRestored true v
                             else stock (snd rw) = stock w /\ v' = v)
                       else
                         ledgers (snd rw) = ledgers w /\ stock (snd rw) = stock w /\ v' = v
                   | None =>
                       ledgers (snd rw) = ledgers w /\ stock (snd rw) = stock w /\ v' = v
                   end)).
  destruct c; cbn [negb];
    [|apply wp_throw; cbn; destruct (supportsTransactions env); discriminate].
  apply wp_get_bind.
  destruct (vouchers w !! id) as [v|] eqn:Hv;
    [|apply wp_ret; cbn; destruct (supportsTransactions env); discriminate].
  destruct (status v) eqn:Hst;
    [|apply wp_ret; cbn; destruct (supportsTransactions env); discriminate].
  cbv zeta. apply wp_bind.
  destruct (ledgers w !! v_ledgerId v) as [l|] eqn:Hl.
  - destruct (canReverse env (v_createdAt v)) eqn:Hcr.
    + apply wp_bind. apply wp_reverseVoucherEffects.
      2:{ intros e w' _. cbn. destruct (supportsTransactions env); discriminate. }
      intros v' w' Hos Hcase.
      destruct Hos as (Hl1 & Hv1 & Hs1 & Hk1 & Hi1 & Hu1 & Hn1).
      wp_go; cbn [fst snd isSuccess errorResponse];
        try (destruct (supportsTransactions env); discriminate);
        intros _; exists v, v'; rewrite Hl, Hcr;
        (split; [reflexivity|]); (split; [exact Hst|]);
        destruct (supportsTransactions env); world_simpl; rewrite ?Hl1, ?Hv1;
        (split; [reflexivity|]);
        (split; [eexists; split; [reflexivity|apply afterRemoval_balances]|]);
        (destruct (restoresStock v);
         [destruct Hcase as [Hmv ->]; split; [exact Hmv|reflexivity]
         |destruct Hcase as [-> ->]; split; reflexivity]).
    + wp_go; cbn [fst snd isSuccess errorResponse];
        try (destruct (supportsTransactions env); discriminate);
        intros _; exists v, v; rewrite Hl, Hcr;
        (split; [reflexivity|]); (split; [exact Hst|]);
        destruct (supportsTransactions env); world_simpl; repeat split.
  - wp_go; cbn [fst snd isSuccess errorResponse];
      try (destruct (supportsTransactions env); discriminate);
      intros _; exists v, v; rewrite Hl;
      (split; [reflexivity|]); (split; [exact Hst|]);
      destruct (supportsTransactions env); world_simpl; repeat split.
Qed.




(** X24. When the voucher's ledger no longer exists, or the reversal window
    has expired, a cancel that the storage accepts succeeds and changes
    nothing but the voucher's status: no ledger balance, no stock counter
    and no stockRestored flag is touched. *)
Theorem cancel_without_reversal (env : Env) (id : nat) (w : World) (v : Voucher) :
  vouchers w !! id = Some v ->
  status v = Active ->
  ledgers w !! v_ledgerId v = None \/ canReverse env (v_createdAt v) = false ->
  saveFails env SaveVoucher = false ->
  isSuccess (fst (VoucherRoutes.patchVoucher env id true w)) = true
  /\ snd (VoucherRoutes.patchVoucher env id true w)
     = setVouchers (insert id (VoucherRoutes.withStatus Cancelled v)) w.
Proof.
  intros Hv Hst Hno Hsave.
  apply (wp_withSession
           (fun rw => isSuccess (fst rw) = true
                      /\ snd rw = setVouchers (insert id (VoucherRoutes.withStatus Cancelled v)) w)).
  cbn [negb]. apply wp_get_bind. rewrite Hv, Hst. cbv zeta.
  apply wp_bind.
  assert (Hpre : wp match ledgers w !! v_ledgerId v with
                    | Some ledger =>
                        if canReverse env (v_createdAt v)
                        then
                          reversed <- VoucherRoutes.reverseVoucherEffects v ledger true true ;;
                          w1 <- get ;;
                          save env SaveLedger
                            (setLedgers (insert (v_ledgerId v)
                               (VoucherRoutes.afterRemoval w1 id v (snd reversed)))) ;;;
                          ret (fst reversed)
                        else ret v
                    | None => ret v
                    end
                    (fun v' w' => v' = v /\ w' = w) (fun _ _ => False) w).
  { destruct Hno as [Hn|Hn].
    - rewrite Hn. apply wp_ret. split; reflexivity.
    - rewrite Hn. destruct (ledgers w !! v_ledgerId v); apply wp_ret; split; reflexivity. }
  eapply wp_conseq; [exact Hpre| |intros e w' []].
  intros v' w' [-> ->]. cbv beta.
  apply wp_bind. unfold save. rewrite Hsave. apply wp_modify. apply wp_ret.
  cbn [fst snd isSuccess]. destruct (supportsTransactions env); split; reflexivity.
Qed.

Lemma cancel_without_reversal_witness :
  isSuccess (fst (VoucherRoutes.patchVoucher lateEnv 1 true soldWorld)) = true
  /\ snd (VoucherRoutes.patchVoucher lateEnv 1 true soldWorld)
     = setVouchers (insert 1%nat (VoucherRoutes.withStatus Cancelled sampleVoucher)) soldWorld.
Proof.
  apply (cancel_without_reversal lateEnv 1 soldWorld sampleVoucher).
  - reflexivity.
  - reflexivity.
  - right. reflexivity.
  - reflexivity.
Defined.

Lemma patchVoucher_cancelled env id w v :
  vouchers w !! id = Some v -> status v = Cancelled ->
  VoucherRoutes.patchVoucher env id true w = (Resp 400 false "Voucher already cancelled", w).
Proof.
  intros Hv Hst. unfold VoucherRoutes.patchVoucher, withSession, bind, get, ret.
  cbn [negb]. rewrite Hv, Hst. cbn [isSuccess].
  now destruct (supportsTransactions env).
Qed.

Lemma putVoucher_cancelled env id req w v :
  vouchers w !! id = Some v -> status v = Cancelled ->
  VoucherRoutes.putVoucher env id req w
  = (Resp 400 false "Cancelled vouchers cannot be edited", w).
Proof.
  intros Hv Hst. unfold VoucherRoutes.putVoucher, withSession, bind, get, ret, throw.
  rewrite Hv, Hst. cbn.
  now destruct (supportsTransactions env).
Qed.

(** X25. A cancel is final: once a voucher has been cancelled, a second cancel
    and every edit of it are refused with status 400 and leave the whole
    world as it was, in any environment. *)
Theorem cancel_is_final (env env' : Env) (id : nat) (w : World)
        (req : VoucherRoutes.VoucherRequest) :
  isSuccess (fst (VoucherRoutes.patchVoucher env id true w)) = true ->
  VoucherRoutes.patchVoucher env' id true (snd (VoucherRoutes.patchVoucher env id true w))
  = (Resp 400 false "Voucher already cancelled",
     snd (VoucherRoutes.patchVoucher env id true w))
  /\ VoucherRoutes.putVoucher env' id req (snd (VoucherRoutes.patchVoucher env id true w))
     = (Resp 400 false "Cancelled vouchers cannot be edited",
        snd (VoucherRoutes.patchVoucher env id true w)).
Proof.
  intros Hs.
  destruct (patchVoucher_success env id true w Hs) as (v & v' & _ & _ & Hvs & _).
  assert (Hv : vouchers (snd (VoucherRoutes.patchVoucher env id true w)) !! id
               = Some (VoucherRoutes.withStatus Cancelled v'))
    by (rewrite Hvs; apply lookup_insert_eq).
  split.
  - now apply patchVoucher_cancelled with (v := VoucherRoutes.withStatus Cancelled v').
  - now apply putVoucher_cancelled with (v := VoucherRoutes.withStatus Cancelled v').
Qed.

Lemma cancel_is_final_witness :
  VoucherRoutes.patchVoucher lateEnv 1 true
    (snd (VoucherRoutes.patchVoucher sampleEnv 1 true soldWorld))
  = (Resp 400 false "Voucher already cancelled",
     snd (VoucherRoutes.patchVoucher sampleEnv 1 true soldWorld)).
Proof.
  apply (cancel_is_final sampleEnv lateEnv 1 soldWorld sampleCreditSale).
  vm_compute; reflexivity.
Defined.







Lemma deleteVoucher_success env id w :
  isSuccess (fst (VoucherRoutes.deleteVoucher env id w)) = true ->
  exists v,
    vouchers w !! id = Some v
    /\ vouchers (snd (VoucherRoutes.deleteVoucher env id w)) = delete id (vouchers w)
    /\ match ledgers w !! v_ledgerId v with
       | Some l =>
           (exists l',
              ledgers (snd (VoucherRoutes.deleteVoucher env id w))
              = <[v_ledgerId v := l']> (ledgers w)
              /\ balances l'
                 = if canReverse env (v_createdAt v)
                      && negb (bool_decide (status v = Cancelled))
                   then VoucherRoutes.reversedBalances v l else balances l)
           /\ (if canReverse env (v_createdAt v) && restoresStock v
               then stockMoved (voucherType v) true (VoucherRoutes.getVoucherStockAdjustment v)
                      w (snd (VoucherRoutes.deleteVoucher env id w))
               else stock (snd (VoucherRoutes.deleteVoucher env id w)) = stock w)
       | None =>
           ledgers (snd (VoucherRoutes.deleteVoucher env id w)) = ledgers w
           /\ stock (snd (VoucherRoutes.deleteVoucher env id w)) = stock w
       end.
Proof.
  apply (wp_withSession
           (fun rw => isSuccess (fst rw) = true ->
              exists v,
                vouchers w !! id = Some v
                /\ vouchers (snd rw) = delete id (vouchers w)
                /\ match ledgers w !! v_ledgerId v with
                   | Some l =>
                       (exists l',
                          ledgers (snd rw) = <[v_ledgerId v := l']> (ledgers w)
                          /\ balances l'
                             = if canReverse env (v_createdAt v)
                                  && negb (bool_decide (status v = Cancelled))
                               then VoucherRoutes.reversedBalances v l else balances l)
                       /\ (if canReverse env (v_createdAt v) && restoresStock v
                           then stockMoved (voucherType v) true
                                  (VoucherRoutes.getVoucherStockAdjustment v) w (snd rw)
                           else stock (snd rw) = stock w)
                   | None => ledgers (snd rw) = ledgers w /\ stock (snd rw) = stock w
                   end)).
  apply wp_get_bind.
  destruct (vouchers w !! id) as [v|] eqn:Hv;
    [|apply wp_ret; cbn; destruct (supportsTransactions env); discriminate].
  cbv zeta. apply wp_bind.
  destruct (ledgers w !! v_ledgerId v) as [l|] eqn:Hl.
  2:{ wp_go; cbn [fst snd isSuccess errorResponse];
        intros _; exists v; rewrite Hl; (split; [reflexivity|]);
        destruct (supportsTransactions env); world_simpl; repeat split. }
  apply wp_bind.
  destruct (canReverse env (v_createdAt v)) eqn:Hcr; cbn [andb].
  - destruct (bool_decide (status v = Cancelled)) eqn:Hst; cbn [negb].
    + (* cancelled earlier: only the stock may still be owed *)
      destruct (stockRestored v) eqn:Hsr; cbn [negb andb].
      * wp_go; cbn [fst snd isSuccess errorResponse];
          try (destruct (supportsTransactions env); discriminate);
          intros _; exists v; rewrite Hl, Hcr, Hst; (split; [reflexivity|]);
          destruct (supportsTransactions env); world_simpl;
          (split; [reflexivity|]);
          (split; [eexists; split; [reflexivity|apply afterRemoval_balances]|]);
          unfold restoresStock; rewrite Hsr; reflexivity.
      * apply wp_bind.
        destruct (VoucherRoutes.hasNonZeroStockAdjustment
                    (VoucherRoutes.getVoucherStockAdjustment v)) eqn:Hnz.
        -- apply wp_applyStock.
           2:{ intros e w' _. cbn. destruct (supportsTransactions env); discriminate. }
           intros w' Hos Hmv _.
           destruct Hos as (Hl1 & Hv1 & Hs1 & Hk1 & Hi1 & Hu1 & Hn1).
           wp_go; cbn [fst snd isSuccess errorResponse];
             try (destruct (supportsTransactions env); discriminate);
             intros _; exists v; rewrite Hl, Hcr, Hst; (split; [reflexivity|]);
             destruct (supportsTransactions env); world_simpl; rewrite ?Hl1, ?Hv1;
             (split; [reflexivity|]);
             (split; [eexists; split; [reflexivity|apply afterRemoval_balances]|]);
             unfold restoresStock; rewrite Hsr, Hnz; exact Hmv.
        -- wp_go; cbn [fst snd isSuccess errorResponse];
             try (destruct (supportsTransactions env); discriminate);
             intros _; exists v; rewrite Hl, Hcr, Hst; (split; [reflexivity|]);
             destruct (supportsTransactions env); world_simpl;
             (split; [reflexivity|]);
             (split; [eexists; split; [reflexivity|apply afterRemoval_balances]|]);
             unfold restoresStock; rewrite Hsr, Hnz; reflexivity.
    + apply wp_bind. apply wp_reverseVoucherEffects.
      2:{ intros e w' _. cbn. destruct (supportsTransactions env); discriminate. }
      intros v' w' Hos Hcase.
      destruct Hos as (Hl1 & Hv1 & Hs1 & Hk1 & Hi1 & Hu1 & Hn1).
      wp_go; cbn [fst snd isSuccess errorResponse];
        try (destruct (supportsTransactions env); discriminate);
        intros _; exists v; rewrite Hl, Hcr, Hst; (split; [reflexivity|]);
        destruct (supportsTransactions env); world_simpl; rewrite ?Hl1, ?Hv1;
        (split; [reflexivity|]);
        (split; [eexists; split; [reflexivity|apply afterRemoval_balances]|]);
        cbn [andb];
        (destruct (restoresStock v);
         [destruct Hcase as [Hmv _]; exact Hmv
         |destruct Hcase as [-> _]; reflexivity]).
  - wp_go; cbn [fst snd isSuccess errorResponse];
      try (destruct (supportsTransactions env); discriminate);
      intros _; exists v; rewrite Hl, Hcr; (split; [reflexivity|]);
      destruct (supportsTransactions env); world_simpl;
      (split; [reflexivity|]);
      (split; [eexists; split; [reflexivity|apply afterRemoval_balances]|]);
      reflexivity.
Qed.

Lemma restoresStock_withStatus st v :
  restoresStock (VoucherRoutes.withStatus st v) = restoresStock v.
Proof. reflexivity. Qed.

Lemma restoresStock_restored v :
  restoresStock (VoucherRoutes.withStockRestored true v) = false.
Proof. reflexivity. Qed.

(** X27. A voucher gives its metal back to the stock once only: after a
    cancel that reversed it, deleting the voucher removes the document
    and changes neither the stock record nor the balances of its ledger,
    whatever the reversal window says at the time of the delete. *)
Theorem delete_after_cancel (env env' : Env) (id : nat) (w : World)
        (v : Voucher) (l : Ledger) :
  vouchers w !! id = Some v ->
  ledgers w !! v_ledgerId v = Some l ->
  canReverse env (v_createdAt v) = true ->
  isSuccess (fst (VoucherRoutes.patchVoucher env id true w)) = true ->
  isSuccess (fst (VoucherRoutes.deleteVoucher env' id
                    (snd (VoucherRoutes.patchVoucher env id true w)))) = true ->
  stock (snd (VoucherRoutes.deleteVoucher env' id
                (snd (VoucherRoutes.patchVoucher env id true w))))
  = stock (snd (VoucherRoutes.patchVoucher env id true w))
  /\ vouchers (snd (VoucherRoutes.deleteVoucher env' id
                      (snd (VoucherRoutes.patchVoucher env id true w)))) !! id = None
  /\ exists l1 l2,
       ledgers (snd (VoucherRoutes.patchVoucher env id true w)) !! v_ledgerId v = Some l1
       /\ ledgers (snd (VoucherRoutes.deleteVoucher env' id
                          (snd (VoucherRoutes.patchVoucher env id true w))))
            !! v_ledgerId v = Some l2
       /\ balances l2 = balances l1.
Proof.
  intros Hv Hl Hcr Hs1 Hs2.
  destruct (patchVoucher_success env id true w Hs1) as (v0 & v' & Hv0 & _ & Hvs & Hcase).
  assert (v0 = v) by congruence. subst v0.
  rewrite Hl, Hcr in Hcase. destruct Hcase as [(l1 & Hl1 & _) Hstock].
  set (w1 := snd (VoucherRoutes.patchVoucher env id true w)) in *.
  assert (Hvc : restoresStock (VoucherRoutes.withStatus Cancelled v') = false
                /\ v_ledgerId (VoucherRoutes.withStatus Cancelled v') = v_ledgerId v).
  { destruct (restoresStock v) eqn:Hr.
    - destruct Hstock as [_ ->]. split; reflexivity.
    - destruct Hstock as [_ ->]. split; [exact Hr|reflexivity]. }
  destruct Hvc as [Hrs Hlid].
  destruct (deleteVoucher_success env' id w1 Hs2) as (vc & Hvc & Hvd & Hcase2).
  assert (vc = VoucherRoutes.withStatus Cancelled v').
  { rewrite Hvs, lookup_insert_eq in Hvc. congruence. }
  subst vc. rewrite Hlid in Hcase2.
  assert (Hl1' : ledgers w1 !! v_ledgerId v = Some l1)
    by (rewrite Hl1; apply lookup_insert_eq).
  rewrite Hl1', Hrs in Hcase2.
  destruct Hcase2 as [(l2 & Hl2 & Hb2) Hst2].
  rewrite andb_false_r in Hst2.
  split; [exact Hst2|].
  split; [rewrite Hvd; apply lookup_delete_eq|].
  exists l1, l2. split; [exact Hl1'|].
  split; [rewrite Hl2; apply lookup_insert_eq|].
  rewrite Hb2. cbn [status VoucherRoutes.withStatus].
  rewrite bool_decide_eq_true_2 by reflexivity.
  cbn [negb]. now rewrite andb_false_r.
Qed.

Lemma delete_after_cancel_witness :
  stock (snd (VoucherRoutes.deleteVoucher sampleEnv 1
                (snd (VoucherRoutes.patchVoucher sampleEnv 1 true soldWorld))))
  = stock (snd (VoucherRoutes.patchVoucher sampleEnv 1 true soldWorld)).
Proof.
  apply (delete_after_cancel sampleEnv sampleEnv 1 soldWorld sampleVoucher
           (mkLedger "Asha" Regular (mkOpening 0 0 0) (mkBalances 10 0 49000 49000 0) true)).
  - reflexivity.
  - reflexivity.
  - reflexivity.
  - vm_compute; reflexivity.
  - vm_compute; reflexivity.
Defined.











